(** * chrome_driver.py: locating, fetching and installing the browser driver

    A shallow embedding of [src/chrome_driver.py].  Python values are
    modelled as follows.

    - [str] is [string]; every [ascii] stands for one character, so the
      model covers text whose code points are below 256 (version banners,
      index keys and paths are ASCII in practice).
    - [None] / a value is [option]; truthiness of an optional string is
      [truthy].
    - Exceptions are the constructors of [exn]; a computation that may raise
      returns [result].
    - The functions that touch the interpreter's surroundings (file system,
      [os.environ], the network, child processes) run in the monad [M]: a
      state transformer over [State] that also yields [Raise e] when an
      exception escapes, keeping the state reached so far.  The parts of
      the surroundings the program only reads are the fields of [World].
    - Calls of [logging] have no effect on any of this and are left out. *)

From Stdlib Require Import ZArith NArith Ascii String List Bool Lia.
From stdpp Require Import gmap strings.

Local Open Scope list_scope.

(** ** Python string primitives *)

Module PyStr.

(** [s.startswith(p)]. *)
Definition startswith (s p : string) : bool := String.prefix p s.

(** [s.find(sub)]: lowest index at which [sub] occurs in [s], or [-1]. *)
Fixpoint find (s sub : string) : Z :=
  if String.prefix sub s then 0%Z
  else match s with
       | EmptyString => (-1)%Z
       | String _ s' =>
           let r := find s' sub in
           if (r <? 0)%Z then (-1)%Z else (r + 1)%Z
       end.

(** [sub in s]. *)
Definition contains (sub s : string) : bool := negb (find s sub <? 0)%Z.

(** [s.split(sep)] for a one-character separator: the pieces between the
    separators, in order; never the empty list. *)
Fixpoint split (sep : ascii) (s : string) : list string :=
  match s with
  | EmptyString => [EmptyString]
  | String c s' =>
      if Ascii.eqb c sep then EmptyString :: split sep s'
      else match split sep s' with
           | [] => [String c EmptyString]
           | piece :: pieces => String c piece :: pieces
           end
  end.

(** [str.isspace] on one character (code points below 256). *)
Definition isspace (c : ascii) : bool :=
  let n := N_of_ascii c in
  ((9 <=? n) && (n <=? 13) || (28 <=? n) && (n <=? 32)
   || (n =? 133) || (n =? 160))%N.

Fixpoint lstrip (s : string) : string :=
  match s with
  | EmptyString => EmptyString
  | String c s' => if isspace c then lstrip s' else s
  end.

Fixpoint rstrip (s : string) : string :=
  match s with
  | EmptyString => EmptyString
  | String c s' =>
      match rstrip s' with
      | EmptyString => if isspace c then EmptyString else String c EmptyString
      | rest => String c rest
      end
  end.

(** [s.strip()]. *)
Definition strip (s : string) : string := rstrip (lstrip s).

(** [s.split()]: the maximal runs of non-space characters. *)
Fixpoint split_ws_aux (word : option string) (s : string) : list string :=
  match s with
  | EmptyString => match word with Some w => [w] | None => [] end
  | String c s' =>
      if isspace c
      then match word with
           | Some w => w :: split_ws_aux None s'
           | None => split_ws_aux None s'
           end
      else match word with
           | Some w => split_ws_aux (Some (w +:+ String c EmptyString)) s'
           | None => split_ws_aux (Some (String c EmptyString)) s'
           end
  end.

Definition split_ws (s : string) : list string := split_ws_aux None s.

(** [s.replace(old, new)] for a non-empty [old]: occurrences are replaced
    from left to right without overlap.  [skip] counts the characters of
    the occurrence just replaced that are still to be dropped. *)
Fixpoint replace_aux (old new : string) (skip : nat) (s : string) : string :=
  match s with
  | EmptyString => EmptyString
  | String c s' =>
      match skip with
      | S k => replace_aux old new k s'
      | O =>
          if String.prefix old s
          then new +:+ replace_aux old new (String.length old - 1) s'
          else String c (replace_aux old new O s')
      end
  end.

Definition replace (s old new : string) : string := replace_aux old new O s.

End PyStr.

(** ** Exceptions and results *)

Inductive exn : Type :=
| RuntimeError (msg : string)
| ValueError (msg : string)
| URLError
| ParseError
| BadZipFile
| KeyError
| IndexError
| TypeError
| AttributeError
| UnicodeDecodeError
| FileNotFoundError
| FileExistsError
| PermissionError
| CalledProcessError
| ConnectionLost
| OSError.

Inductive result (A : Type) : Type :=
| Return (a : A)
| Raise (e : exn).
Arguments Return {A} a.
Arguments Raise {A} e.

(** [not x] for an optional string: [None] and the empty string are falsy. *)
Definition truthy (x : option string) : bool :=
  match x with
  | Some (String _ _) => true
  | _ => false
  end.

(** ** Platform Detector *)

(** [get_platform_architecture], as a function of [sys.platform] and
    [sys.maxsize]. *)
Definition get_platform_architecture (platform : string) (maxsize : Z)
  : result (string * string) :=
  if PyStr.startswith platform "linux" && (2 ^ 32 <? maxsize)%Z
  then Return ("linux", "64")
  else if String.eqb platform "darwin"
  then Return ("mac", "64")
  else if PyStr.startswith platform "win"
  then Return ("win", "32")
  else Raise (RuntimeError
    "Could not determine chromedriver download URL for this platform.").

Definition get_chromedriver_filename (platform : string) : string :=
  if PyStr.startswith platform "win" then "chromedriver.exe" else "chromedriver".

Definition get_variable_separator (platform : string) : string :=
  if PyStr.startswith platform "win" then ";" else ":".

(** [version.split('.')[0]]. *)
Definition get_major_version (version : string) : string :=
  hd EmptyString (PyStr.split "." version).

(** ** The interpreter's surroundings *)

(** A byte string.  The program only decodes byte strings as UTF-8 and tests
    them for emptiness, so a byte string is represented by its decoding when
    it has one. *)
Inductive bytes : Type :=
| Utf8 (text : string)
| NotUtf8.

(** [b.decode('utf-8')]. *)
Definition decode (b : bytes) : result string :=
  match b with
  | Utf8 text => Return text
  | NotUtf8 => Raise UnicodeDecodeError
  end.

(** Truth value of a byte string: non-empty. *)
Definition bytes_truthy (b : bytes) : bool :=
  match b with
  | Utf8 EmptyString => false
  | _ => true
  end.

(** A regular file: its content (an opaque blob) and its permission bits. *)
Record file : Type := File { content : N; mode : N }.

(** What starting a program does: the launch fails, or the child runs to
    completion with an exit status and everything it wrote to stdout. *)
Inductive proc_outcome : Type :=
| ExecFails (e : exn)
| Exited (status : Z) (stdout : bytes).

(** A response body, seen through the two parsers the program applies to
    it: [elemTree.fromstring] followed by [root.iter('{...}Key')] (the
    [text] of every Key element in document order, [None] for an element
    without text), and [zipfile.ZipFile] (member names and contents). *)
Record payload : Type := Payload {
  xml_keys : result (list (option string));
  zip_members : result (list (string * N))
}.

(** What the network does with a GET.  [Unreachable]: the request could
    not be sent (name lookup, connection refused); urllib wraps that error
    in [URLError].  [NoAnswer]: the request was sent but the connection
    ended, was reset or timed out before an answer came; [getresponse]
    raises an error that urllib does not wrap ([RemoteDisconnected],
    [ConnectionResetError], [TimeoutError]; here [ConnectionLost]).
    [Answered]: an answer with a status code and a body that can be read.
    [BodyLost]: the status line and the headers came, but reading the body
    fails with such an error. *)
Inductive net_outcome : Type :=
| Unreachable
| NoAnswer
| Answered (status : Z) (body : payload)
| BodyLost (status : Z).

(** The part of the surroundings that a run only reads.  The [os.path]
    functions depend on the platform and are taken as given. *)
Record World : Type := {
  sys_platform : string;
  sys_maxsize : Z;
  getcwd : string;
  module_dir : string;                     (* os.path.dirname(__file__) *)
  path_join : string -> string -> string;  (* os.path.join *)
  path_abspath : string -> string;         (* os.path.abspath *)
  path_dirname : string -> string;         (* os.path.dirname *)
  defpath : string;                        (* os.defpath *)
  umask : N;
  http_get : string -> net_outcome;
  exec : N -> list string -> proc_outcome
}.

Inductive event : Type :=
| EvUrlopen (url : string)
| EvSpawn (argv : list string).

(** The part a run can change, and the record of what it attempted. *)
Record State : Type := {
  files : gmap string file;
  dirs : gset string;
  environ : gmap string string;
  trace : list event                       (* most recent first *)
}.

(** ** The monad of runs *)

Definition M (A : Type) : Type := State -> result A * State.

Definition ret {A} (a : A) : M A := fun st => (Return a, st).
Definition raise {A} (e : exn) : M A := fun st => (Raise e, st).
Definition bind {A B} (m : M A) (k : A -> M B) : M B :=
  fun st => match m st with
            | (Return a, st') => k a st'
            | (Raise e, st') => (Raise e, st')
            end.
Definition lift {A} (r : result A) : M A := fun st => (r, st).

(** [try: body / except C: handler], where [catches e] says whether [e] is
    an instance of [C]. *)
Definition try_except {A} (body : M A) (catches : exn -> bool)
    (handler : exn -> M A) : M A :=
  fun st => match body st with
            | (Return a, st') => (Return a, st')
            | (Raise e, st') =>
                if catches e then handler e st' else (Raise e, st')
            end.

Notation "'do' x <- m ; k" := (bind m (fun x => k))
  (at level 10, x name, m at level 100, k at level 200).
Notation "'run' m ; k" := (bind m (fun _ => k))
  (at level 10, m at level 100, k at level 200).

Definition log (ev : event) (st : State) : State :=
  {| files := files st; dirs := dirs st; environ := environ st;
     trace := ev :: trace st |}.

(** The [urlopen] calls recorded in a trace, and their number. *)
Definition urlopens (t : list event) : list event :=
  List.filter (fun ev => match ev with EvUrlopen _ => true | _ => false end) t.

Definition network_calls (t : list event) : nat := List.length (urlopens t).

(** ** File system, child processes and network *)

(** The process owns the files it inspects, so [os.access(p, os.X_OK)] is
    the owner's execute bit (octal 100) of a file that exists. *)
Definition executable (f : file) : bool := N.testbit (mode f) 6.

Definition isfile (p : string) : M bool :=
  fun st => (Return (bool_decide (is_Some (files st !! p))), st).

Definition isdir (p : string) : M bool :=
  fun st => (Return (bool_decide (p ∈ dirs st)), st).

Definition access_X_OK (p : string) : M bool :=
  fun st => (Return (match files st !! p with
                     | Some f => executable f
                     | None => bool_decide (p ∈ dirs st)
                     end), st).

Definition set_files (fs : gmap string file) (st : State) : State :=
  {| files := fs; dirs := dirs st; environ := environ st; trace := trace st |}.

Definition set_dirs (ds : gset string) (st : State) : State :=
  {| files := files st; dirs := ds; environ := environ st; trace := trace st |}.

Definition set_environ (env : gmap string string) (st : State) : State :=
  {| files := files st; dirs := dirs st; environ := env; trace := trace st |}.

(** [os.chmod(p, m)]: replaces the permission bits of an existing file. *)
Definition chmod (p : string) (m : N) : M unit :=
  fun st => match files st !! p with
            | Some f =>
                (Return tt, set_files (<[p := File (content f) m]> (files st)) st)
            | None =>
                if bool_decide (p ∈ dirs st) then (Return tt, st)
                else (Raise FileNotFoundError, st)
            end.

(** [os.mkdir(p)]. *)
Definition mkdir (p : string) : M unit :=
  fun st => if bool_decide (is_Some (files st !! p)) || bool_decide (p ∈ dirs st)
            then (Raise FileExistsError, st)
            else (Return tt, set_dirs ({[p]} ∪ dirs st) st).

(** [os.makedirs(name)]: creates the missing ancestors first, then [name]
    itself.  [fuel] bounds the climb through [os.path.dirname]. *)
Fixpoint makedirs_aux (w : World) (fuel : nat) (name : string) : M unit :=
  let head := path_dirname w name in
  match fuel with
  | O => mkdir name
  | S fuel' =>
      fun st =>
        if negb (String.eqb head EmptyString) && negb (String.eqb head name)
           && negb (bool_decide (is_Some (files st !! head)))
           && negb (bool_decide (head ∈ dirs st))
        then (run makedirs_aux w fuel' head; mkdir name) st
        else mkdir name st
  end.

Definition makedirs (w : World) (name : string) : M unit :=
  makedirs_aux w (String.length name) name.

(** Writing a file: a new file gets the default permission bits (octal 666
    without the umask); rewriting an existing file keeps its bits. *)
Definition write_file (w : World) (p : string) (blob : N) : M unit :=
  fun st => if bool_decide (p ∈ dirs st) then (Raise OSError, st)
            else
              let m := match files st !! p with
                       | Some f => mode f
                       | None => N.ldiff 438 (umask w)
                       end in
              (Return tt, set_files (<[p := File blob m]> (files st)) st).

Fixpoint zip_lookup (name : string) (members : list (string * N)) : option N :=
  match members with
  | [] => None
  | (n, blob) :: rest => if String.eqb n name then Some blob else zip_lookup name rest
  end.

(** [with zipfile.ZipFile(archive) as z: z.extract(name, directory)]. *)
Definition zip_extract (w : World) (archive : payload) (name directory : string)
  : M unit :=
  do members <- lift (zip_members archive);
  match zip_lookup name members with
  | None => raise KeyError
  | Some blob => write_file w (path_join w directory name) blob
  end.

(** Starting a child process and collecting its exit status and stdout.
    The program is looked up under [argv[0]] as given: search-path
    resolution of bare command names is not modelled, a system command is a
    file registered under its bare name. *)
Definition spawn (w : World) (argv : list string) : M (Z * bytes) :=
  fun st =>
    let st' := log (EvSpawn argv) st in
    match argv with
    | [] => (Raise IndexError, st')
    | prog :: _ =>
        match files st !! prog with
        | None => (Raise FileNotFoundError, st')
        | Some f =>
            if executable f
            then match exec w (content f) argv with
                 | ExecFails e => (Raise e, st')
                 | Exited status out => (Return (status, out), st')
                 end
            else (Raise PermissionError, st')
        end
    end.

(** [subprocess.check_output(argv)]: stdout of a child that exits with
    status zero. *)
Definition check_output (w : World) (argv : list string) : M bytes :=
  do r <- spawn w argv;
  if (fst r =? 0)%Z then ret (snd r) else raise CalledProcessError.

(** [subprocess.Popen(argv, stdout=PIPE)] followed by reading stdout to the
    end ([proc.stdout.read()] or [communicate()[0]]); the exit status is
    not looked at. *)
Definition popen_stdout (w : World) (argv : list string) : M bytes :=
  do r <- spawn w argv;
  ret (snd r).

(** [urllib.request.urlopen(url)], giving the status code of the response
    and what reading its body will give.  A request that cannot be sent
    and an answer outside 2xx are raised as [URLError] ([HTTPError] is a
    subclass); a connection lost before the answer is raised as it is. *)
Definition urlopen (w : World) (url : string) : M (Z * result payload) :=
  fun st =>
    let st' := log (EvUrlopen url) st in
    match http_get w url with
    | Unreachable => (Raise URLError, st')
    | NoAnswer => (Raise ConnectionLost, st')
    | Answered status body =>
        if (200 <=? status)%Z && (status <? 300)%Z
        then (Return (status, Return body), st')
        else (Raise URLError, st')
    | BodyLost status =>
        if (200 <=? status)%Z && (status <? 300)%Z
        then (Return (status, Raise ConnectionLost), st')
        else (Raise URLError, st')
    end.

(** [response.read()]. *)
Definition read (response : Z * result payload) : M payload :=
  lift (snd response).

(** [isinstance(e, urllib.error.URLError)]. *)
Definition is_URLError (e : exn) : bool :=
  match e with
  | URLError => true
  | _ => false
  end.

(** ** Local Binary Inspector *)

(** The character class [[\d.]] (on code points below 256 the decimal
    digits are exactly 0 to 9). *)
Definition digit_or_dot (c : ascii) : bool :=
  let n := N_of_ascii c in
  ((48 <=? n) && (n <=? 57) || (n =? 46))%N.

(** Longest prefix of characters of the class: what the greedy [[\d.]+]
    consumes. *)
Fixpoint version_run (s : string) : string :=
  match s with
  | EmptyString => EmptyString
  | String c s' => if digit_or_dot c then String c (version_run s') else EmptyString
  end.

(** [re.match(r'.*?([\d.]+).*?', s)[1]].  The lazy [.*?] takes one more
    character (any but a line feed) each time the group cannot start where
    it stands; the group then takes the longest run and the trailing [.*?]
    takes nothing.  Indexing the [None] of a failed match is a
    [TypeError]. *)
Fixpoint re_match_version (s : string) : result string :=
  match s with
  | EmptyString => Raise TypeError
  | String c s' =>
      if digit_or_dot c then Return (version_run s)
      else if Ascii.eqb c "010" then Raise TypeError
      else re_match_version s'
  end.

(** [check_version]: the body of the [try] either returns [True] or falls
    through to the final [return False]; [except Exception] catches every
    exception of [exn]. *)
Definition check_version (w : World) (binary required_version : string) : M bool :=
  do returned <-
    try_except
      (do version <- check_output w [binary; "-v"];
       do text <- lift (decode version);
       do version <- lift (re_match_version text);
       if String.eqb version required_version then ret (Some true) else ret None)
      (fun _ => true)
      (fun _ => ret (Some false));
  match returned with
  | Some b => ret b
  | None => ret false
  end.

(** ** Installed-Version Reader *)

(** [shutil.which(cmd)] for a bare command name on a POSIX platform: the
    first directory of the search path that holds an executable regular
    file of that name. *)
Definition which (w : World) (cmd : string) : M (option string) :=
  fun st =>
    let path := match environ st !! "PATH" with
                | Some p => p
                | None => defpath w
                end in
    let candidates :=
      if String.eqb path EmptyString then []
      else List.map (fun d => path_join w d cmd) (PyStr.split ":" path) in
    (Return (List.find
               (fun name => match files st !! name with
                            | Some f => executable f
                            | None => false
                            end) candidates), st).

Fixpoint first_on_path (w : World) (names : list string) : M string :=
  match names with
  | [] => raise (ValueError "No chrome executable found on PATH")
  | executable :: rest =>
      do path <- which w executable;
      match path with
      | Some p => ret p
      | None => first_on_path w rest
      end
  end.

Definition get_linux_executable_path (w : World) : M string :=
  first_on_path w
    ["google-chrome"; "google-chrome-stable"; "google-chrome-beta";
     "google-chrome-dev"; "chromium-browser"; "chromium"].

(** [xs[-1]]. *)
Definition last_item (xs : list string) : result string :=
  match List.rev xs with
  | [] => Raise IndexError
  | x :: _ => Return x
  end.

Definition get_chrome_version (w : World) : M (option string) :=
  do pa <- lift (get_platform_architecture (sys_platform w) (sys_maxsize w));
  let platform := fst pa in
  if String.eqb platform "linux" then
    do path <- get_linux_executable_path w;
    do out <- popen_stdout w [path; "--version"];
    do text <- lift (decode out);
    ret (Some (PyStr.strip
      (PyStr.replace (PyStr.replace text "Chromium" EmptyString) "Google Chrome" EmptyString)))
  else if String.eqb platform "mac" then
    do out <- popen_stdout w
      ["/Applications/Google Chrome.app/Contents/MacOS/Google Chrome"; "--version"];
    do text <- lift (decode out);
    ret (Some (PyStr.strip (PyStr.replace text "Google Chrome" EmptyString)))
  else if String.eqb platform "win" then
    do out <- popen_stdout w
      ["reg"; "query"; "HKEY_CURRENT_USER\Software\Google\Chrome\BLBeacon";
       "/v"; "version"];
    if bytes_truthy out then
      do text <- lift (decode out);
      do version <- lift (last_item (PyStr.split_ws (PyStr.strip text)));
      ret (Some version)
    else
      do out <- popen_stdout w
        ["powershell"; "-command";
         "$(Get-ItemProperty -Path Registry::HKEY_CURRENT_USER\Software\Google\chrome\BLBeacon).version"];
      do text <- lift (decode out);
      ret (Some (PyStr.strip text))
  else ret None.

(** ** Remote Version Resolver *)

Definition index_url (no_ssl : bool) : string :=
  if no_ssl then "http://chromedriver.storage.googleapis.com"
  else "https://chromedriver.storage.googleapis.com".

(** The [for k in root.iter(...)] loop of
    [get_matched_chromedriver_version] over the Key texts; [None.find] is
    an [AttributeError]. *)
Fixpoint match_keys (version : string) (keys : list (option string))
  : result (option string) :=
  match keys with
  | [] => Return None
  | k :: rest =>
      match k with
      | None => Raise AttributeError
      | Some text =>
          if (PyStr.find text (get_major_version version +:+ ".") =? 0)%Z
          then Return (Some (hd EmptyString (PyStr.split "/" text)))
          else match_keys version rest
      end
  end.

Definition get_matched_chromedriver_version (w : World) (version : string)
    (no_ssl : bool) : M (option string) :=
  do response <- urlopen w (index_url no_ssl);
  do doc <- read response;
  do keys <- lift (xml_keys doc);
  lift (match_keys version keys).

(** ** Fetch & Unpack *)

Definition get_chromedriver_url (w : World) (version : string) (no_ssl : bool)
  : result string :=
  let base_url := if no_ssl then "http://chromedriver.storage.googleapis.com/"
                  else "https://chromedriver.storage.googleapis.com/" in
  match get_platform_architecture (sys_platform w) (sys_maxsize w) with
  | Raise e => Raise e
  | Return (platform, architecture) =>
      Return (base_url +:+ version +:+ "/chromedriver_" +:+ platform
              +:+ architecture +:+ ".zip")
  end.

Definition download_failed (url : string) : exn :=
  RuntimeError ("Failed to download chromedriver archive: " +:+ url).

(** Lines 163-174 of [download_chromedriver]: the directory of the driver,
    named after the major version, under the supplied path or next to the
    module. *)
Definition driver_directory (w : World) (path : option string)
    (major_version : string) : M string :=
  match path with
  | Some (String c p') =>
      let p := String c p' in
      do d <- isdir p;
      if negb d then raise (ValueError ("Invalid path: " +:+ p))
      else ret (path_join w (path_abspath w p) major_version)
  | _ => ret (path_join w (path_abspath w (module_dir w)) major_version)
  end.

(** Lines 179-191: the body of the download branch. *)
Definition fetch_and_unpack (w : World) (chromedriver_version : string)
    (no_ssl : bool) (chromedriver_dir chromedriver_filename : string) : M unit :=
  do d <- isdir chromedriver_dir;
  run (if negb d then makedirs w chromedriver_dir else ret tt);
  do url <- lift (get_chromedriver_url w chromedriver_version no_ssl);
  do response <-
    try_except
      (do response <- urlopen w url;
       if negb (fst response =? 200)%Z then raise URLError else ret response)
      is_URLError
      (fun _ => raise (download_failed url));
  do archive <- read response;
  zip_extract w archive chromedriver_filename chromedriver_dir.

(** Lines 194-195: the final permission fix. *)
Definition ensure_executable (chromedriver_filepath : string) : M unit :=
  do x <- access_X_OK chromedriver_filepath;
  if negb x then chmod chromedriver_filepath 484 else ret tt.

Definition download_chromedriver (w : World) (path : option string)
    (no_ssl : bool) : M (option string) :=
  do chrome_version <- get_chrome_version w;
  match chrome_version with
  | Some (String c0 v0) =>
      let chrome_version := String c0 v0 in
      do chromedriver_version <-
        get_matched_chromedriver_version w chrome_version no_ssl;
      match chromedriver_version with
      | Some (String c1 v1) =>
          let chromedriver_version := String c1 v1 in
          let major_version := get_major_version chromedriver_version in
          do chromedriver_dir <- driver_directory w path major_version;
          let chromedriver_filename := get_chromedriver_filename (sys_platform w) in
          let chromedriver_filepath :=
            path_join w chromedriver_dir chromedriver_filename in
          do present <- isfile chromedriver_filepath;
          do current <-
            (if present
             then check_version w chromedriver_filepath chromedriver_version
             else ret false);
          run (if negb present || negb current
               then fetch_and_unpack w chromedriver_version no_ssl
                      chromedriver_dir chromedriver_filename
               else ret tt);
          run ensure_executable chromedriver_filepath;
          ret (Some chromedriver_filepath)
      | _ => ret None
      end
  | _ => ret None
  end.

(** ** Environment Installer *)

(** Lines 25-28 of [install]. *)
Definition update_PATH (w : World) (chromedriver_dir : string) : M unit :=
  fun st =>
    match environ st !! "PATH" with
    | None => (Return tt, set_environ (<["PATH" := chromedriver_dir]> (environ st)) st)
    | Some p =>
        if negb (PyStr.contains chromedriver_dir p)
        then (Return tt,
              set_environ
                (<["PATH" := chromedriver_dir
                             +:+ get_variable_separator (sys_platform w) +:+ p]>
                   (environ st)) st)
        else (Return tt, st)
    end.

Definition install (w : World) (cwd : bool) (path : option string)
    (no_ssl : bool) : M (option string) :=
  let path := if cwd then Some (getcwd w) else path in
  do chromedriver_filepath <- download_chromedriver w path no_ssl;
  match chromedriver_filepath with
  | Some (String c f) =>
      let chromedriver_filepath := String c f in
      let chromedriver_dir := path_dirname w chromedriver_filepath in
      run update_PATH w chromedriver_dir;
      ret (Some chromedriver_filepath)
  | _ => ret None
  end.

(** * Vocabulary of the statements *)

(** [h] is the part of [s] before its first [sep] (all of [s] when [sep]
    does not occur). *)
Definition leading_segment (sep : ascii) (s h : string) : Prop :=
  (forall a b, h <> a +:+ String sep b) /\
  (s = h \/ exists rest, s = h +:+ String sep rest).

Definition starts_with (s p : string) : Prop := exists t, s = p +:+ t.

(** The closed set of platform tags. *)
Definition platform_tags : list (string * string) :=
  [("linux", "64"); ("mac", "64"); ("win", "32")].

(** The supported (operating system, pointer width) inputs: 64-bit Linux,
    macOS, Windows. *)
Definition supported_platform (platform : string) (maxsize : Z) : Prop :=
  (starts_with platform "linux" /\ (2 ^ 32 < maxsize)%Z)
  \/ platform = "darwin"
  \/ starts_with platform "win".

(** The text of an index key starts with the major version of [version]
    followed by a dot. *)
Definition key_matches (version k : string) : Prop :=
  exists major, leading_segment "." version major /\ starts_with k (major +:+ ".").

(** [r] is the leading path segment of the first matching key, in index
    order, or [None] when no key matches. *)
Definition first_match (version : string) (keys : list string)
    (r : option string) : Prop :=
  match r with
  | None => Forall (fun k => ~ key_matches version k) keys
  | Some v =>
      exists pre k post,
        keys = pre ++ k :: post
        /\ Forall (fun k' => ~ key_matches version k') pre
        /\ key_matches version k
        /\ leading_segment "/" k v
  end.

Fixpoint string_forall (P : ascii -> bool) (s : string) : bool :=
  match s with
  | EmptyString => true
  | String c s' => P c && string_forall P s'
  end.

(** [v] is the numeric-and-dot substring of [text]: the first maximal run
    of digits and dots, provided no line feed comes before it. *)
Definition numeric_dot_substring (text v : string) : Prop :=
  exists pre post,
    text = pre +:+ v +:+ post
    /\ string_forall (fun c => negb (digit_or_dot c) && negb (Ascii.eqb c "010")) pre = true
    /\ v <> EmptyString
    /\ string_forall digit_or_dot v = true
    /\ match post with
       | EmptyString => True
       | String c _ => digit_or_dot c = false
       end.

(** The separator of the search-path variable as a character. *)
Definition separator_char (platform : string) : ascii :=
  match get_variable_separator platform with
  | String c _ => c
  | EmptyString => ":"%char
  end.

(** Number of entries of the search-path value [value] that are the
    directory [dir]. *)
Definition occurrences (platform dir value : string) : nat :=
  List.length (List.filter (String.eqb dir)
                 (PyStr.split (separator_char platform) value)).

(** The Environment Installer step, run twice with the same directory. *)
Definition update_PATH_twice (w : World) (dir : string) : M unit :=
  run update_PATH w dir; update_PATH w dir.

(** The statement that two runs of the step leave exactly one occurrence
    of the directory in the variable. *)
Definition exactly_once_after_two_runs (w : World) (dir : string)
    (st : State) : Prop :=
  exists st2 value,
    update_PATH_twice w dir st = (Return tt, st2)
    /\ environ st2 !! "PATH" = Some value
    /\ occurrences (sys_platform w) dir value = 1.

(** The directory was not yet in the variable: the variable is unset, or
    set to a value of which the directory is not a substring. *)
Definition absent_from_PATH (dir : string) (st : State) : Prop :=
  match environ st !! "PATH" with
  | None => True
  | Some old => PyStr.contains dir old = false
  end.

(** A computation leaves the observation [g] of the state as it found it,
    whether it returns or raises. *)
Definition preserves {X A : Type} (g : State -> X) (m : M A) : Prop :=
  forall st, g (snd (m st)) = g st.

(** What is on disk and in the environment. *)
Definition disk (st : State) : gmap string file * gset string * gmap string string :=
  (files st, dirs st, environ st).

(** Creating directories touches neither files, environment nor trace, and
    removes no directory. *)
Definition only_adds_dirs (st st1 : State) : Prop :=
  files st1 = files st /\ environ st1 = environ st /\ trace st1 = trace st
  /\ dirs st ⊆ dirs st1.

(** The archive GET failed in a way the download branch handles: the
    request could not be sent, or the answer has a status other than
    200. *)
Definition archive_get_failed (w : World) (url : string) : Prop :=
  match http_get w url with
  | Unreachable => True
  | NoAnswer => False
  | Answered status _ => status <> 200%Z
  | BodyLost status => status <> 200%Z
  end.

(** The URLs other than the index that a trace shows a GET for, most
    recent first: the archive GETs. *)
Fixpoint archive_gets (no_ssl : bool) (t : list event) : list string :=
  match t with
  | [] => []
  | EvUrlopen url :: t' =>
      if String.eqb url (index_url no_ssl) then archive_gets no_ssl t'
      else url :: archive_gets no_ssl t'
  | EvSpawn _ :: t' => archive_gets no_ssl t'
  end.

(** [gets] are the archive GETs made between the states [st] and [st']. *)
Definition run_gets (no_ssl : bool) (st st' : State) (gets : list string) : Prop :=
  archive_gets no_ssl (trace st') = gets ++ archive_gets no_ssl (trace st).

(** Disk, environment and archive GETs: what the steps before the download
    decision leave alone. *)
Definition obs (no_ssl : bool) (st : State) :=
  (disk st, archive_gets no_ssl (trace st)).

(** Lines 177-196 of [download_chromedriver], once it is decided whether
    the download branch is taken. *)
Definition download_tail (w : World) (need : bool)
    (chromedriver_version : string) (no_ssl : bool)
    (chromedriver_dir : string) : M (option string) :=
  let chromedriver_filename := get_chromedriver_filename (sys_platform w) in
  let chromedriver_filepath := path_join w chromedriver_dir chromedriver_filename in
  run (if need
       then fetch_and_unpack w chromedriver_version no_ssl
              chromedriver_dir chromedriver_filename
       else ret tt);
  run ensure_executable chromedriver_filepath;
  ret (Some chromedriver_filepath).



(** The mode of the file at [fp] when the permission step is reached:
    unpacking keeps the mode of a file that exists and creates a new file
    with octal 666 less the umask. *)
Definition mode_before_fix (w : World) (st : State) (fp : string) : N :=
  match files st !! fp with
  | Some f0 => mode f0
  | None => N.ldiff 438 (umask w)
  end.

(** Every permission bit of [old] is a bit of [new]. *)
Definition mode_widened (old new : N) : Prop := N.land old new = old.

(** The statement that a successful run only adds permission bits to a
    driver file that was there before. *)
Definition permission_bits_kept (w : World) (path : option string)
    (no_ssl : bool) (st : State) : Prop :=
  forall fp f0 f,
    fst (download_chromedriver w path no_ssl st) = Return (Some fp) ->
    files st !! fp = Some f0 ->
    files (snd (download_chromedriver w path no_ssl st)) !! fp = Some f ->
    mode_widened (mode f0) (mode f).

(** The driver's path for a base directory and a resolved version:
    [<base>/<major>/<driver file name>]. *)
Definition driver_path (w : World) (base version : string) : string :=
  path_join w
    (path_join w (path_abspath w base) (get_major_version version))
    (get_chromedriver_filename (sys_platform w)).

(** * A POSIX instance of the surroundings, for concrete runs *)

Module Posix.

Fixpoint has_slash (s : string) : bool :=
  match s with
  | EmptyString => false
  | String c s' => Ascii.eqb c "/" || has_slash s'
  end.

Fixpoint ends_with_slash (s : string) : bool :=
  match s with
  | EmptyString => false
  | String c EmptyString => Ascii.eqb c "/"
  | String _ s' => ends_with_slash s'
  end.

(** [posixpath.join] of two components. *)
Definition join (a b : string) : string :=
  if String.prefix "/" b then b
  else if String.eqb a EmptyString || ends_with_slash a then a +:+ b
  else a +:+ "/" +:+ b.

Fixpoint upto_last_slash (s : string) : string :=
  match s with
  | EmptyString => EmptyString
  | String c s' => if has_slash s then String c (upto_last_slash s') else EmptyString
  end.

Fixpoint all_slashes (s : string) : bool :=
  match s with
  | EmptyString => true
  | String c s' => Ascii.eqb c "/" && all_slashes s'
  end.

Fixpoint rstrip_slashes (s : string) : string :=
  match s with
  | EmptyString => EmptyString
  | String c s' =>
      match rstrip_slashes s' with
      | EmptyString => if Ascii.eqb c "/" then EmptyString else String c EmptyString
      | rest => String c rest
      end
  end.

(** [posixpath.dirname]. *)
Definition dirname (p : string) : string :=
  let head := upto_last_slash p in
  if negb (String.eqb head EmptyString) && negb (all_slashes head)
  then rstrip_slashes head else head.

(** [posixpath.abspath] on paths that need no normalisation. *)
Definition abspath (cwd p : string) : string :=
  if String.prefix "/" p then p else join cwd p.

End Posix.

Module Demo.

Definition index_keys : list string :=
  ["113.0.5672.63/chromedriver_linux64.zip";
   "114.0.5735.16/chromedriver_linux64.zip";
   "114.0.5735.16/chromedriver_mac64.zip";
   "114.0.5735.90/chromedriver_linux64.zip"].

Definition index_body : payload :=
  Payload (Return (List.map Some index_keys)) (Raise BadZipFile).

Definition archive_body : payload :=
  Payload (Raise ParseError) (Return [("chromedriver", 7%N)]).

Definition archive_url : string :=
  "https://chromedriver.storage.googleapis.com/114.0.5735.16/chromedriver_linux64.zip".

(** A network on which the index is served and the archive answers with
    the given status. *)
Definition network (archive_status : Z) (url : string) : net_outcome :=
  if String.eqb url (index_url false) then Answered 200 index_body
  else if String.eqb url archive_url then Answered archive_status archive_body
  else Unreachable.

(** Blob 1 is a browser, blob 2 a browser that prints nothing, blob 3 a
    browser newer than every driver of the index, blob 7 the driver of the
    archive, blob 8 an older driver. *)
Definition programs (blob : N) (argv : list string) : proc_outcome :=
  match blob with
  | 1%N => Exited 0 (Utf8 "Google Chrome 114.0.5735.90 ")
  | 2%N => Exited 0 (Utf8 EmptyString)
  | 3%N => Exited 0 (Utf8 "Google Chrome 115.0.5790.98 ")
  | 7%N => Exited 0 (Utf8 "ChromeDriver 114.0.5735.16 (5f4cc6bd-refs/heads)")
  | 8%N => Exited 0 (Utf8 "ChromeDriver 113.0.5672.63 (0e1a4471-refs/heads)")
  | _ => ExecFails OSError
  end.

Definition world (archive_status : Z) : World := {|
  sys_platform := "linux";
  sys_maxsize := 9223372036854775807;
  getcwd := "/home/user";
  module_dir := "/opt/pkg";
  path_join := Posix.join;
  path_abspath := Posix.abspath "/home/user";
  path_dirname := Posix.dirname;
  defpath := "/bin:/usr/bin";
  umask := 18;
  http_get := network archive_status;
  exec := programs
|}.

(** A machine with the given browser blob installed and no driver yet. *)
Definition state (browser : N) : State := {|
  files := {[ "/usr/bin/google-chrome" := File browser 493 ]};
  dirs := {[ "/"; "/usr"; "/usr/bin"; "/opt"; "/opt/pkg"; "/home"; "/home/user" ]};
  environ := {[ "PATH" := "/usr/local/bin:/usr/bin" ]};
  trace := []
|}.

(** The same machine with the driver directory already twice in the
    search path. *)
Definition state_with_duplicates : State :=
  set_environ {[ "PATH" := "/opt/pkg/114:/opt/pkg/114" ]} (state 1).

(** The demo world on a network on which the index is served and the
    connection to the archive endpoint is lost after the request. *)
Definition lost_world : World := {|
  sys_platform := "linux";
  sys_maxsize := 9223372036854775807;
  getcwd := "/home/user";
  module_dir := "/opt/pkg";
  path_join := Posix.join;
  path_abspath := Posix.abspath "/home/user";
  path_dirname := Posix.dirname;
  defpath := "/bin:/usr/bin";
  umask := 18;
  http_get := fun url =>
    if String.eqb url (index_url false) then Answered 200 index_body
    else NoAnswer;
  exec := programs
|}.

(** The demo machine with an older driver in place whose mode is octal
    664: readable and writable by owner and group, not executable. *)
Definition stale_state : State :=
  set_dirs ({[ "/opt/pkg/114" ]} ∪ dirs (state 1))
    (set_files (<[ "/opt/pkg/114/chromedriver" := File 8 436 ]> (files (state 1)))
       (state 1)).

(** The run of [download_chromedriver] on that machine when the archive
    endpoint answers with [archive_status]. *)
Definition download_run (archive_status : Z) : result (option string) * State :=
  download_chromedriver (world archive_status) None false (state 1).

End Demo.

(** * The remaining functions of the module *)

(** The [for directory in ...] loop of [find_binary_in_path] over the
    entries of the search path. *)
Fixpoint find_binary_loop (w : World) (filename : string)
    (directories : list string) : M (option string) :=
  match directories with
  | [] => ret None
  | directory :: rest =>
      let binary := path_abspath w (path_join w directory filename) in
      do f <- isfile binary;
      do x <- (if f then access_X_OK binary else ret false);
      if f && x then ret (Some binary)
      else find_binary_loop w filename rest
  end.

(** [find_binary_in_path]; the separator of [get_variable_separator] is one
    character, so [str.split] is [PyStr.split] on that character. *)
Definition find_binary_in_path (w : World) (filename : string)
  : M (option string) :=
  fun st =>
    match environ st !! "PATH" with
    | None => (Return None, st)
    | Some p =>
        find_binary_loop w filename
          (PyStr.split (separator_char (sys_platform w)) p) st
    end.

(** [get_chromedriver_path]. *)
Definition get_chromedriver_path (w : World) : string :=
  path_abspath w (module_dir w).

(** * Vocabulary of the further statements *)

(** An executable regular file exists at [p]. *)
Definition usable_binary (st : State) (p : string) : Prop :=
  exists f, files st !! p = Some f /\ executable f = true.

(** The path [find_binary_in_path] tries for a directory of the search
    path. *)
Definition candidate (w : World) (filename directory : string) : string :=
  path_abspath w (path_join w directory filename).

(** [r] is the candidate of the first directory, in search-path order, whose
    candidate is a usable binary, or [None] when there is none. *)
Definition first_usable (w : World) (st : State) (filename : string)
    (directories : list string) (r : option string) : Prop :=
  match r with
  | None =>
      Forall (fun d => ~ usable_binary st (candidate w filename d)) directories
  | Some b =>
      exists pre d post,
        directories = pre ++ d :: post
        /\ Forall (fun d' => ~ usable_binary st (candidate w filename d')) pre
        /\ b = candidate w filename d
        /\ usable_binary st b
  end.

(** The names [get_linux_executable_path] looks for, in order of
    preference. *)
Definition linux_browser_names : list string :=
  ["google-chrome"; "google-chrome-stable"; "google-chrome-beta";
   "google-chrome-dev"; "chromium-browser"; "chromium"].

(** [shutil.which] does not find [name]. *)
Definition not_on_path (w : World) (st : State) (name : string) : Prop :=
  fst (which w name st) = Return None.

(** No character of [s] is [c]. *)
Definition free_of (c : ascii) (s : string) : bool :=
  string_forall (fun x => negb (Ascii.eqb x c)) s.

(** A string that is empty or starts with a character that is no space. *)
Definition starts_clean (t : string) : Prop :=
  match t with
  | EmptyString => True
  | String c _ => PyStr.isspace c = false
  end.

(** * Further concrete machines *)

(** The error with which a GET whose body is then read fails, if it does:
    [urlopen] raises URLError when the request cannot be sent or the answer
    is outside 2xx; a connection lost before the answer, or while the body
    is read, raises the connection's own error. *)
Definition fetch_error (o : net_outcome) : option exn :=
  match o with
  | Unreachable => Some URLError
  | NoAnswer => Some ConnectionLost
  | Answered status _ =>
      if (200 <=? status)%Z && (status <? 300)%Z then None else Some URLError
  | BodyLost status =>
      if (200 <=? status)%Z && (status <? 300)%Z
      then Some ConnectionLost else Some URLError
  end.

Module Cases.

(** The demo machine without any browser. *)
Definition no_browser : State :=
  set_files ∅ (Demo.state 1).

(** A world whose index endpoint cannot be reached. *)
Definition offline : World := {|
  sys_platform := "linux";
  sys_maxsize := 9223372036854775807;
  getcwd := "/home/user";
  module_dir := "/opt/pkg";
  path_join := Posix.join;
  path_abspath := Posix.abspath "/home/user";
  path_dirname := Posix.dirname;
  defpath := "/bin:/usr/bin";
  umask := 18;
  http_get := fun _ => Unreachable;
  exec := Demo.programs
|}.

(** A world whose archive endpoint answers 200 with a body that is not a
    ZIP archive. *)
Definition broken_archive : World := {|
  sys_platform := "linux";
  sys_maxsize := 9223372036854775807;
  getcwd := "/home/user";
  module_dir := "/opt/pkg";
  path_join := Posix.join;
  path_abspath := Posix.abspath "/home/user";
  path_dirname := Posix.dirname;
  defpath := "/bin:/usr/bin";
  umask := 18;
  http_get := fun _ => Answered 200 Demo.index_body;
  exec := Demo.programs
|}.

(** A world whose index lists a Key element without text before the
    matching keys. *)
Definition textless_index : World := {|
  sys_platform := "linux";
  sys_maxsize := 9223372036854775807;
  getcwd := "/home/user";
  module_dir := "/opt/pkg";
  path_join := Posix.join;
  path_abspath := Posix.abspath "/home/user";
  path_dirname := Posix.dirname;
  defpath := "/bin:/usr/bin";
  umask := 18;
  http_get := fun _ =>
    Answered 200
      (Payload
         (Return (List.map Some ["113.0.5672.63/chromedriver_linux64.zip"]
                  ++ None :: List.map Some Demo.index_keys))
         (Raise BadZipFile));
  exec := Demo.programs
|}.

(** The demo machine after a first successful run. *)
Definition installed : State := snd (Demo.download_run 200).

(** A search path with two directories holding a [chromedriver], the first
    of them not executable. *)
Definition two_drivers : State := {|
  files := {[ "/a/chromedriver" := File 8 420;
              "/b/chromedriver" := File 7 493;
              "/c/chromedriver" := File 8 493 ]};
  dirs := {[ "/"; "/a"; "/b"; "/c" ]};
  environ := {[ "PATH" := "/a:/b:/c" ]};
  trace := []
|}.

End Cases.

(** * Properties *)

(** ** Strings *)

Lemma app_cons (c : ascii) (p t : string) :
  String c p +:+ t = String c (p +:+ t).
Proof. reflexivity. Qed.

Lemma app_empty (t : string) : EmptyString +:+ t = t.
Proof. reflexivity. Qed.

Lemma prefix_app (p t : string) : String.prefix p (p +:+ t) = true.
Proof.
  induction p as [|c p IH]; [by destruct t|].
  rewrite app_cons. cbn. destruct (ascii_dec c c); [exact IH | congruence].
Qed.

Lemma prefix_split (p s : string) :
  String.prefix p s = true -> exists t, s = p +:+ t.
Proof.
  revert s. induction p as [|c p IH]; intros s H.
  - by exists s.
  - destruct s as [|d s]; [discriminate|].
    cbn in H. destruct (ascii_dec c d) as [->|]; [|discriminate].
    destruct (IH _ H) as [t ->]. exists t. reflexivity.
Qed.

Lemma prefix_iff (p s : string) :
  String.prefix p s = true <-> exists t, s = p +:+ t.
Proof.
  split; [apply prefix_split|]. intros [t ->]. apply prefix_app.
Qed.

Lemma find_unfold (s sub : string) :
  PyStr.find s sub =
  if String.prefix sub s then 0%Z
  else match s with
       | EmptyString => (-1)%Z
       | String _ s' =>
           if (PyStr.find s' sub <? 0)%Z then (-1)%Z
           else (PyStr.find s' sub + 1)%Z
       end.
Proof. by destruct s. Qed.

Lemma find_lower_bound (s sub : string) : (-1 <= PyStr.find s sub)%Z.
Proof.
  induction s as [|c s IH]; rewrite find_unfold;
    destruct (String.prefix sub _); try lia.
  destruct (Z.ltb_spec (PyStr.find s sub) 0); lia.
Qed.

(** [s.find(sub) == 0] is [s.startswith(sub)]. *)
Lemma find_zero_iff (s sub : string) :
  (PyStr.find s sub =? 0)%Z = String.prefix sub s.
Proof.
  rewrite find_unfold. destruct (String.prefix sub s); [done|].
  destruct s as [|c s]; [done|].
  pose proof (find_lower_bound s sub).
  destruct (Z.ltb_spec (PyStr.find s sub) 0); [done|].
  apply Z.eqb_neq. lia.
Qed.

Lemma split_nonempty (sep : ascii) (s : string) : PyStr.split sep s <> [].
Proof.
  destruct s as [|c s]; cbn; [done|].
  destruct (Ascii.eqb c sep); [done|]. by destruct (PyStr.split sep s).
Qed.

Lemma split_head_leading (sep : ascii) (s : string) :
  leading_segment sep s (hd EmptyString (PyStr.split sep s)).
Proof.
  induction s as [|c s [IHno IHeq]]; cbn.
  - split; [|by left]. intros [|??] ??; discriminate.
  - destruct (Ascii.eqb_spec c sep) as [->|Hne]; cbn.
    + split; [intros [|??] ??; discriminate|]. right. by exists s.
    + pose proof (split_nonempty sep s) as Hnil.
      destruct (PyStr.split sep s) as [|piece pieces]; [done|]. cbn in *.
      split.
      * intros [|a0 a] b Heq; cbn in Heq; injection Heq as Hc Hrest.
        -- by apply Hne.
        -- by apply (IHno a b).
      * destruct IHeq as [->|[rest ->]]; [by left|]. right. by exists rest.
Qed.

Lemma leading_segment_empty (sep : ascii) (h : string) :
  leading_segment sep EmptyString h -> h = EmptyString.
Proof. intros [_ [<-|[rest Heq]]]; [done|]. by destruct h. Qed.

Lemma leading_segment_cons (sep c : ascii) (s h : string) :
  leading_segment sep (String c s) h ->
  (c = sep /\ h = EmptyString)
  \/ (c <> sep /\ exists h', h = String c h' /\ leading_segment sep s h').
Proof.
  intros [Hno Heq]. destruct h as [|d h'].
  - left. destruct Heq as [[=]|[rest [= -> _]]]. done.
  - assert (d = c) as -> by (destruct Heq as [[=]|[rest [=]]]; done).
    right. split.
    + intros ->. by apply (Hno EmptyString h').
    + exists h'. split; [done|]. split.
      * intros a b ->. by apply (Hno (String c a) b).
      * destruct Heq as [[= ->]|[rest [= ->]]]; [by left|right; by exists rest].
Qed.

Lemma leading_segment_unique (sep : ascii) (s h1 h2 : string) :
  leading_segment sep s h1 -> leading_segment sep s h2 -> h1 = h2.
Proof.
  revert h1 h2. induction s as [|c s IH]; intros h1 h2 L1 L2.
  - by rewrite (leading_segment_empty _ _ L1), (leading_segment_empty _ _ L2).
  - apply leading_segment_cons in L1 as [[-> ->]|(Hne1 & h1' & -> & L1)];
      apply leading_segment_cons in L2 as [[? ->]|(Hne2 & h2' & -> & L2)];
      try done.
    f_equal. by apply IH.
Qed.

Lemma starts_with_prefix (s p : string) :
  String.prefix p s = true <-> starts_with s p.
Proof. apply prefix_iff. Qed.

(** ** Platform Detector *)

(** C5: on every (operating system, pointer width) input the detector
    either returns one of the three tags linux/64, mac/64, win/32, and
    then the input is a supported one, or raises the RuntimeError, and
    then the input is not supported. *)
Theorem platform_detector_closed_set (platform : string) (maxsize : Z) :
  match get_platform_architecture platform maxsize with
  | Return tag => supported_platform platform maxsize /\ In tag platform_tags
  | Raise e =>
      ~ supported_platform platform maxsize
      /\ e = RuntimeError
           "Could not determine chromedriver download URL for this platform."
  end.
Proof.
  unfold get_platform_architecture, supported_platform, PyStr.startswith.
  destruct (String.prefix "linux" platform) eqn:Hlinux;
    destruct (Z.ltb_spec (2 ^ 32) maxsize) as [Hmax|Hmax]; cbn [andb].
  1: { split; [left; split; [by apply starts_with_prefix | done] | cbn; tauto]. }
  all: destruct (String.eqb_spec platform "darwin") as [->|Hmac];
    [split; [right; by left | cbn; tauto]|].
  all: destruct (String.prefix "win" platform) eqn:Hwin;
    [split; [right; right; by apply starts_with_prefix | cbn; tauto]|].
  all: split; [|done].
  all: intros [[Hl Hm]|[?|Hw]]; try done.
  all: try (apply starts_with_prefix in Hw; congruence).
  all: try (apply starts_with_prefix in Hl; congruence).
  lia.
Qed.

(** ** Remote Version Resolver *)

Lemma key_matches_prefix (version k : string) :
  String.prefix (get_major_version version +:+ ".") k = true
  <-> key_matches version k.
Proof.
  split.
  - intros H. exists (get_major_version version). split.
    + apply split_head_leading.
    + by apply starts_with_prefix.
  - intros (major & Hlead & Hk). unfold get_major_version.
    rewrite (leading_segment_unique _ _ _ _ (split_head_leading "." version) Hlead).
    by apply starts_with_prefix.
Qed.

Lemma match_keys_first_match (version : string) (keys : list string) :
  exists r, match_keys version (List.map Some keys) = Return r
            /\ first_match version keys r.
Proof.
  induction keys as [|k keys (r & Hr & Hspec)]; cbn.
  - exists None. split; [done|]. constructor.
  - rewrite find_zero_iff.
    destruct (String.prefix _ k) eqn:Hk.
    + eexists. split; [done|]. exists [], k, keys.
      split; [done|]. split; [constructor|]. split.
      * by apply key_matches_prefix.
      * apply split_head_leading.
    + assert (Hno : ~ key_matches version k).
      { intros Hm. apply key_matches_prefix in Hm. congruence. }
      exists r. split; [done|]. destruct r as [v|]; cbn in *.
      * destruct Hspec as (pre & k' & post & -> & Hpre & Hk' & Hv).
        exists (k :: pre), k', post. split; [done|]. split; [by constructor|done].
      * by constructor.
Qed.

(** C1: when the index document is fetched and parses to the keys [keys],
    the resolver returns the leading path segment of the first key, in
    index order, whose text starts with the major version of the installed
    version followed by a dot, and [None] when no key matches; the only
    effect is the one GET of the index. *)
Theorem resolver_returns_first_match (w : World) (st : State)
    (version : string) (no_ssl : bool) (status : Z) (body : payload)
    (keys : list string) :
  http_get w (index_url no_ssl) = Answered status body ->
  (200 <= status < 300)%Z ->
  xml_keys body = Return (List.map Some keys) ->
  exists r,
    get_matched_chromedriver_version w version no_ssl st
      = (Return r, log (EvUrlopen (index_url no_ssl)) st)
    /\ first_match version keys r.
Proof.
  intros Hget Hstatus Hkeys.
  destruct (match_keys_first_match version keys) as (r & Hr & Hspec).
  exists r. split; [|done].
  unfold get_matched_chromedriver_version, bind, urlopen, lift.
  rewrite Hget.
  replace ((200 <=? status)%Z && (status <? 300)%Z) with true
    by (symmetry; apply andb_true_iff; split; [apply Z.leb_le | apply Z.ltb_lt]; lia).
  cbn. by rewrite Hkeys, Hr.
Qed.

Lemma resolver_returns_first_match_witness :
  exists r,
    get_matched_chromedriver_version (Demo.world 200) "114.0.5735.90" false
      (Demo.state 1)
      = (Return r, log (EvUrlopen (index_url false)) (Demo.state 1))
    /\ first_match "114.0.5735.90" Demo.index_keys r.
Proof.
  apply (resolver_returns_first_match (Demo.world 200) (Demo.state 1)
           "114.0.5735.90" false 200 Demo.index_body Demo.index_keys);
    [reflexivity | lia | reflexivity].
Defined.

(** ** Local Binary Inspector *)

Lemma version_run_split (s : string) :
  exists post,
    s = version_run s +:+ post
    /\ string_forall digit_or_dot (version_run s) = true
    /\ match post with
       | EmptyString => True
       | String c _ => digit_or_dot c = false
       end.
Proof.
  induction s as [|c s (post & Hs & Hall & Hpost)]; cbn.
  - by exists EmptyString.
  - destruct (digit_or_dot c) eqn:Hc.
    + exists post. rewrite app_cons, <- Hs. cbn. by rewrite Hc.
    + exists (String c s). by rewrite app_empty.
Qed.

Lemma version_run_app (v post : string) :
  string_forall digit_or_dot v = true ->
  match post with
  | EmptyString => True
  | String c _ => digit_or_dot c = false
  end ->
  version_run (v +:+ post) = v.
Proof.
  intros Hv Hpost. induction v as [|c v IH].
  - rewrite app_empty. destruct post as [|d post]; [done|]. cbn. by rewrite Hpost.
  - rewrite app_cons. cbn in *. apply andb_true_iff in Hv as [-> Hv].
    by rewrite IH.
Qed.

(** The regular expression of [check_version] extracts the numeric-and-dot
    substring, and fails exactly when the text has none. *)
Lemma re_match_version_spec (text v : string) :
  re_match_version text = Return v <-> numeric_dot_substring text v.
Proof.
  split.
  - revert v. induction text as [|c text IH]; intros v H;
      cbn [re_match_version] in H; [done|].
    destruct (digit_or_dot c) eqn:Hc.
    + injection H as <-.
      destruct (version_run_split (String c text)) as (post & Hs & Hall & Hpost).
      exists EmptyString, post. rewrite app_empty. split; [done|]. split; [done|].
      split; [cbn; by rewrite Hc|done].
    + destruct (Ascii.eqb c "010") eqn:Hnl; [done|].
      destruct (IH _ H) as (pre & post & -> & Hpre & Hne & Hall & Hpost).
      exists (String c pre), post. split; [done|].
      split; [cbn; by rewrite Hc, Hnl|done].
  - intros (pre & post & -> & Hpre & Hne & Hall & Hpost).
    induction pre as [|c pre IH].
    + rewrite app_empty. destruct v as [|c v]; [done|].
      rewrite app_cons. cbn [re_match_version].
      assert (Hc : digit_or_dot c = true) by (cbn in Hall; by apply andb_true_iff in Hall as [? _]).
      rewrite Hc, <- app_cons. by rewrite version_run_app.
    + rewrite app_cons. cbn in *.
      apply andb_true_iff in Hpre as [Hc Hpre].
      apply andb_true_iff in Hc as [Hc Hnl].
      apply negb_true_iff in Hc, Hnl. rewrite Hc, Hnl. by apply IH.
Qed.

(** Closes a case of [check_version] in which the answer is [False]. *)
Local Ltac answers_false :=
  eexists; split; [reflexivity|]; split; [discriminate|];
  intros (? & ? & ? & ? & ? & ? & ? & Hsub); simplify_eq/=;
  try (apply re_match_version_spec in Hsub; congruence).

(** C2: [check_version] always returns a boolean (it never raises), and
    the boolean is [True] exactly when a file exists at the path, is
    executable, the invocation with the version flag yields an output, and
    the numeric-and-dot substring of that output equals the required
    version; a missing file, a file that is not executable, a failed
    invocation and an output without such a substring all give [False]. *)
Theorem check_version_true_iff (w : World) (st : State)
    (binary required_version : string) :
  exists b,
    check_version w binary required_version st
      = (Return b, log (EvSpawn [binary; "-v"]) st)
    /\ (b = true <->
        exists f out text,
          files st !! binary = Some f
          /\ executable f = true
          /\ fst (check_output w [binary; "-v"] st) = Return out
          /\ decode out = Return text
          /\ numeric_dot_substring text required_version).
Proof.
  unfold check_version, check_output, try_except, bind, spawn, lift, ret, raise.
  destruct (files st !! binary) as [f|] eqn:Hf; cbn; [|answers_false].
  destruct (executable f) eqn:Hx; cbn; [|answers_false].
  destruct (exec w (content f) [binary; "-v"]) as [e|status out] eqn:Hexec;
    cbn; [answers_false|].
  destruct (status =? 0)%Z eqn:Hstatus; cbn; [|answers_false].
  destruct out as [text|]; cbn; [|answers_false].
  destruct (re_match_version text) as [v|e] eqn:Hre; cbn; [|answers_false].
  destruct (String.eqb_spec v required_version) as [->|Hne]; cbn;
    [|answers_false].
  eexists. split; [reflexivity|]. split; [|done]. intros _.
  exists f, (Utf8 text), text. repeat split; try done.
  by apply re_match_version_spec.
Qed.

(** ** Environment Installer *)

Lemma contains_prefix (sub s : string) :
  String.prefix sub s = true -> PyStr.contains sub s = true.
Proof.
  intros H. unfold PyStr.contains. rewrite find_unfold, H. reflexivity.
Qed.

Lemma contains_cons (sub s : string) (c : ascii) :
  PyStr.contains sub s = true -> PyStr.contains sub (String c s) = true.
Proof.
  unfold PyStr.contains. intros H. rewrite find_unfold.
  destruct (String.prefix sub (String c s)); [done|].
  apply negb_true_iff in H. rewrite H.
  apply negb_true_iff, Z.ltb_ge. apply Z.ltb_ge in H. lia.
Qed.

Lemma contains_self_app (dir t : string) : PyStr.contains dir (dir +:+ t) = true.
Proof. apply contains_prefix, prefix_app. Qed.

Lemma contains_self (dir : string) : PyStr.contains dir dir = true.
Proof.
  apply contains_prefix. induction dir as [|c dir IH]; [done|].
  cbn. by destruct (ascii_dec c c).
Qed.

Lemma get_variable_separator_char (platform : string) :
  get_variable_separator platform = String (separator_char platform) EmptyString.
Proof.
  unfold separator_char, get_variable_separator.
  by destruct (PyStr.startswith platform "win").
Qed.

Lemma split_without_sep (c : ascii) (h : string) :
  string_forall (fun x => negb (Ascii.eqb x c)) h = true ->
  PyStr.split c h = [h].
Proof.
  induction h as [|x h IH]; cbn; [done|].
  intros [Hx Hh]%andb_true_iff. apply negb_true_iff in Hx.
  by rewrite Hx, (IH Hh).
Qed.

Lemma split_at_sep (c : ascii) (h rest : string) :
  string_forall (fun x => negb (Ascii.eqb x c)) h = true ->
  PyStr.split c (h +:+ String c rest) = h :: PyStr.split c rest.
Proof.
  induction h as [|x h IH]; intros Hh.
  - rewrite app_empty. cbn. by rewrite Ascii.eqb_refl.
  - cbn in Hh. apply andb_true_iff in Hh as [Hx Hh]. apply negb_true_iff in Hx.
    rewrite app_cons. cbn. by rewrite Hx, (IH Hh).
Qed.

Lemma split_head_prefix (c : ascii) (s piece : string) (pieces : list string) :
  PyStr.split c s = piece :: pieces -> String.prefix piece s = true.
Proof.
  revert piece pieces. induction s as [|e s IH]; intros piece pieces Hsplit;
    cbn in Hsplit.
  - by injection Hsplit as <- _.
  - destruct (Ascii.eqb e c); [by injection Hsplit as <- _|].
    destruct (PyStr.split c s) as [|p ps] eqn:Hs.
    + by destruct (split_nonempty c s).
    + injection Hsplit as <- _. cbn. destruct (ascii_dec e e); [|done].
      by apply (IH p ps).
Qed.

(** Every entry of a search-path value is a substring of the value. *)
Lemma split_entry_contains (c : ascii) (s x : string) :
  In x (PyStr.split c s) -> PyStr.contains x s = true.
Proof.
  revert x. induction s as [|d s IH]; intros x Hin.
  - destruct Hin as [<-|[]]. done.
  - destruct (PyStr.split c (String d s)) as [|piece pieces] eqn:Hsplit; [done|].
    destruct Hin as [<-|Hin].
    + by apply contains_prefix, (split_head_prefix c _ _ pieces).
    + apply contains_cons, IH. cbn in Hsplit.
      destruct (Ascii.eqb d c); [injection Hsplit as _ <-; done|].
      destruct (PyStr.split c s) as [|p ps]; injection Hsplit as _ <-; [done|].
      by right.
Qed.

Lemma occurrences_absent (platform dir old : string) :
  PyStr.contains dir old = false -> occurrences platform dir old = 0.
Proof.
  intros Habs. unfold occurrences.
  assert (Hall : forall x, In x (PyStr.split (separator_char platform) old) ->
                           String.eqb dir x = false).
  { intros x Hin. destruct (String.eqb_spec dir x) as [->|]; [|done].
    apply split_entry_contains in Hin. congruence. }
  induction (PyStr.split (separator_char platform) old) as [|x xs IH]; [done|].
  cbn. rewrite (Hall x) by (by left). apply IH. intros y Hy. apply Hall. by right.
Qed.

Lemma occurrences_single (platform dir : string) :
  string_forall (fun x => negb (Ascii.eqb x (separator_char platform))) dir = true ->
  occurrences platform dir dir = 1.
Proof.
  intros Hfree. unfold occurrences. rewrite split_without_sep by done.
  cbn. by rewrite String.eqb_refl.
Qed.

Lemma occurrences_prepended (platform dir old : string) :
  string_forall (fun x => negb (Ascii.eqb x (separator_char platform))) dir = true ->
  PyStr.contains dir old = false ->
  occurrences platform dir (dir +:+ get_variable_separator platform +:+ old) = 1.
Proof.
  intros Hfree Habs. pose proof (occurrences_absent platform dir old Habs) as H0.
  unfold occurrences in *.
  rewrite get_variable_separator_char.
  change (String (separator_char platform) EmptyString +:+ old)
    with (String (separator_char platform) old).
  rewrite split_at_sep by done. cbn. rewrite String.eqb_refl. cbn. by rewrite H0.
Qed.

(** C4, as the code has it: the step always succeeds and running it a
    second time with the same directory changes nothing; after it the
    variable is set and has the directory as a substring: it is the
    directory alone when the variable was unset, the directory, the
    platform separator and the old value when the directory was not a
    substring of the old value, and the old value otherwise.  When the
    directory was absent before and holds no separator, it is exactly one
    entry of the result. *)
Theorem update_PATH_idempotent (w : World) (dir : string) (st : State) :
  exists st1 value,
    update_PATH w dir st = (Return tt, st1)
    /\ update_PATH_twice w dir st = (Return tt, st1)
    /\ environ st1 !! "PATH" = Some value
    /\ PyStr.contains dir value = true
    /\ value = match environ st !! "PATH" with
               | None => dir
               | Some old =>
                   if PyStr.contains dir old then old
                   else dir +:+ get_variable_separator (sys_platform w) +:+ old
               end
    /\ (absent_from_PATH dir st ->
        string_forall
          (fun x => negb (Ascii.eqb x (separator_char (sys_platform w)))) dir = true ->
        occurrences (sys_platform w) dir value = 1).
Proof.
  unfold update_PATH_twice, bind, update_PATH, absent_from_PATH.
  destruct (environ st !! "PATH") as [old|] eqn:Hold.
  - destruct (PyStr.contains dir old) eqn:Hin; cbn.
    + exists st, old. rewrite Hold, Hin. cbn. repeat split; try done.
    + eexists _, _. split; [reflexivity|]. cbn. rewrite lookup_insert_eq.
      rewrite contains_self_app. cbn. repeat split; try done.
      * apply contains_self_app.
      * intros _ Hfree. by apply occurrences_prepended.
  - eexists _, _. split; [reflexivity|]. cbn. rewrite lookup_insert_eq.
    rewrite contains_self. cbn. repeat split; try done.
    + apply contains_self.
    + intros _ Hfree. by apply occurrences_single.
Qed.

(** C4, as stated, fails: starting from a search path that already lists
    the driver directory twice, two runs of the step leave two
    occurrences. *)
Lemma update_PATH_exactly_once_counterexample :
  ~ exactly_once_after_two_runs (Demo.world 200) "/opt/pkg/114"
      Demo.state_with_duplicates.
Proof.
  intros (st2 & value & Hrun & Hvalue & Hocc).
  vm_compute in Hrun. injection Hrun as <-.
  vm_compute in Hvalue. injection Hvalue as <-.
  vm_compute in Hocc. discriminate.
Qed.

(** ** Runs: inversion and frame rules *)

Lemma bind_inv {A B : Type} (m : M A) (k : A -> M B) (st st' : State)
    (r : result B) :
  bind m k st = (r, st') ->
  (exists e, m st = (Raise e, st') /\ r = Raise e)
  \/ (exists a st1, m st = (Return a, st1) /\ k a st1 = (r, st')).
Proof.
  unfold bind. destruct (m st) as [[a|e] st1]; intros H.
  - right. by exists a, st1.
  - left. injection H as <- <-. by exists e.
Qed.

Lemma bind_Return_inv {A B : Type} (m : M A) (k : A -> M B) (st st' : State)
    (b : B) :
  bind m k st = (Return b, st') ->
  exists a st1, m st = (Return a, st1) /\ k a st1 = (Return b, st').
Proof.
  intros H. apply bind_inv in H as [(e & _ & [=])|H]. exact H.
Qed.

Section Frame.

Context {X : Type} (g : State -> X).

Lemma preserves_ret {A : Type} (a : A) : preserves g (ret a).
Proof. by intros st. Qed.

Lemma preserves_raise {A : Type} (e : exn) : preserves g (@raise A e).
Proof. by intros st. Qed.

Lemma preserves_lift {A : Type} (r : result A) : preserves g (lift r).
Proof. by intros st. Qed.

Lemma preserves_bind {A B : Type} (m : M A) (k : A -> M B) :
  preserves g m -> (forall a, preserves g (k a)) -> preserves g (bind m k).
Proof.
  intros Hm Hk st. unfold bind. specialize (Hm st).
  destruct (m st) as [[a|e] st1]; [|exact Hm].
  rewrite Hk. exact Hm.
Qed.

Lemma preserves_try_except {A : Type} (body : M A) (catches : exn -> bool)
    (handler : exn -> M A) :
  preserves g body -> (forall e, preserves g (handler e)) ->
  preserves g (try_except body catches handler).
Proof.
  intros Hb Hh st. unfold try_except. specialize (Hb st).
  destruct (body st) as [[a|e] st1]; [exact Hb|].
  destruct (catches e); [|exact Hb]. rewrite Hh. exact Hb.
Qed.

Lemma preserves_isfile (p : string) : preserves g (isfile p).
Proof. by intros st. Qed.

Lemma preserves_isdir (p : string) : preserves g (isdir p).
Proof. by intros st. Qed.

Lemma preserves_access (p : string) : preserves g (access_X_OK p).
Proof. by intros st. Qed.

Lemma preserves_which (w : World) (cmd : string) : preserves g (which w cmd).
Proof. by intros st. Qed.

(** Observations that do not see the start of a child process. *)
Hypothesis blind_to_spawn : forall argv st, g (log (EvSpawn argv) st) = g st.

Lemma preserves_spawn (w : World) (argv : list string) : preserves g (spawn w argv).
Proof.
  intros st. unfold spawn. destruct argv as [|prog argv]; cbn;
    [apply blind_to_spawn|].
  destruct (files st !! prog) as [f|]; [|apply blind_to_spawn].
  destruct (executable f); [|apply blind_to_spawn].
  destruct (exec w (content f) (prog :: argv)); apply blind_to_spawn.
Qed.

End Frame.

(** Splits the frame goal of a compound computation along its structure. *)
Ltac frame_step :=
  match goal with
  | |- preserves _ (bind _ _) => apply preserves_bind; [|intros ?]
  | |- preserves _ (try_except _ _ _) => apply preserves_try_except; [|intros ?]
  | |- preserves _ (ret _) => apply preserves_ret
  | |- preserves _ (raise _) => apply preserves_raise
  | |- preserves _ (lift _) => apply preserves_lift
  | |- preserves _ (isfile _) => apply preserves_isfile
  | |- preserves _ (isdir _) => apply preserves_isdir
  | |- preserves _ (access_X_OK _) => apply preserves_access
  | |- preserves _ (which _ _) => apply preserves_which
  | |- preserves _ (if ?b then _ else _) => destruct b
  | |- preserves _ (match ?x with _ => _ end) => destruct x
  end.

Ltac frame := repeat frame_step; eauto.

Section SpawnFrame.

Context {X : Type} (g : State -> X).
Hypothesis blind_to_spawn : forall argv st, g (log (EvSpawn argv) st) = g st.

Lemma preserves_check_output (w : World) (argv : list string) :
  preserves g (check_output w argv).
Proof. unfold check_output. frame. by apply preserves_spawn. Qed.

Lemma preserves_popen_stdout (w : World) (argv : list string) :
  preserves g (popen_stdout w argv).
Proof. unfold popen_stdout. frame. by apply preserves_spawn. Qed.

Lemma preserves_check_version (w : World) (binary required_version : string) :
  preserves g (check_version w binary required_version).
Proof. unfold check_version. frame. by apply preserves_check_output. Qed.

Lemma preserves_first_on_path (w : World) (names : list string) :
  preserves g (first_on_path w names).
Proof. induction names as [|name names IH]; cbn; frame. Qed.

Lemma preserves_get_chrome_version (w : World) :
  preserves g (get_chrome_version w).
Proof.
  unfold get_chrome_version, get_linux_executable_path.
  frame; by (apply preserves_popen_stdout || apply preserves_first_on_path).
Qed.

End SpawnFrame.

Lemma preserves_eq {X A : Type} (g : State -> X) (m : M A) (st st1 : State)
    (r : result A) :
  preserves g m -> m st = (r, st1) -> g st1 = g st.
Proof. intros Hm Hrun. specialize (Hm st). by rewrite Hrun in Hm. Qed.

Section NetFrame.

Context {X : Type} (g : State -> X).

Lemma preserves_urlopen (w : World) (url : string) :
  (forall st, g (log (EvUrlopen url) st) = g st) ->
  preserves g (urlopen w url).
Proof.
  intros Hblind st. unfold urlopen.
  destruct (http_get w url) as [| |status body|status];
    try destruct ((200 <=? status)%Z && (status <? 300)%Z); apply Hblind.
Qed.

Lemma preserves_get_matched_chromedriver_version (w : World)
    (version : string) (no_ssl : bool) :
  (forall st, g (log (EvUrlopen (index_url no_ssl)) st) = g st) ->
  preserves g (get_matched_chromedriver_version w version no_ssl).
Proof.
  intros Hblind. unfold get_matched_chromedriver_version, read. frame.
  by apply preserves_urlopen.
Qed.

Lemma preserves_driver_directory (w : World) (path : option string)
    (major_version : string) :
  preserves g (driver_directory w path major_version).
Proof. unfold driver_directory. frame. Qed.

End NetFrame.

Lemma urlopens_spawn (argv : list string) (st : State) :
  urlopens (trace (log (EvSpawn argv) st)) = urlopens (trace st).
Proof. reflexivity. Qed.

(** ** Scenario C: the browser is not installed *)

(** C3: when the Installed-Version Reader yields no version ([None] or the
    empty string), [download_chromedriver] and [install] return [None] in
    the state the reader left, and no network call was attempted: the
    trace holds the [urlopen] calls it held before the run and no other. *)
Theorem browser_absent_no_network (w : World) (cwd : bool)
    (path : option string) (no_ssl : bool) (st st1 : State)
    (v : option string) :
  get_chrome_version w st = (Return v, st1) ->
  truthy v = false ->
  download_chromedriver w path no_ssl st = (Return None, st1)
  /\ install w cwd path no_ssl st = (Return None, st1)
  /\ urlopens (trace st1) = urlopens (trace st)
  /\ network_calls (trace st1) = network_calls (trace st).
Proof.
  intros Hreader Hv.
  assert (Hdl : forall p, download_chromedriver w p no_ssl st = (Return None, st1)).
  { intros p. unfold download_chromedriver, bind. rewrite Hreader.
    by destruct v as [[|??]|]. }
  split; [apply Hdl|]. split.
  - unfold install, bind. by rewrite Hdl.
  - assert (Hcalls : urlopens (trace st1) = urlopens (trace st))
      by exact (preserves_eq (fun s => urlopens (trace s)) _ _ _ _
                  (preserves_get_chrome_version _ urlopens_spawn w) Hreader).
    split; [exact Hcalls|]. unfold network_calls. by rewrite Hcalls.
Qed.

Lemma browser_absent_no_network_witness :
  download_chromedriver (Demo.world 200) None false (Demo.state 2)
    = (Return None,
       log (EvSpawn ["/usr/bin/google-chrome"; "--version"]) (Demo.state 2))
  /\ install (Demo.world 200) false None false (Demo.state 2)
    = (Return None,
       log (EvSpawn ["/usr/bin/google-chrome"; "--version"]) (Demo.state 2))
  /\ urlopens
       (trace (log (EvSpawn ["/usr/bin/google-chrome"; "--version"]) (Demo.state 2)))
     = urlopens (trace (Demo.state 2))
  /\ network_calls
       (trace (log (EvSpawn ["/usr/bin/google-chrome"; "--version"]) (Demo.state 2)))
     = network_calls (trace (Demo.state 2)).
Proof.
  apply (browser_absent_no_network (Demo.world 200) false None false
           (Demo.state 2)
           (log (EvSpawn ["/usr/bin/google-chrome"; "--version"]) (Demo.state 2))
           (Some EmptyString));
    [vm_compute; reflexivity | reflexivity].
Defined.

(** ** The environment is only touched by the installer step *)

Lemma preserves_environ_mkdir (p : string) : preserves environ (mkdir p).
Proof. intros st. unfold mkdir. by destruct (_ || _). Qed.

Lemma preserves_environ_makedirs_aux (w : World) (fuel : nat) (name : string) :
  preserves environ (makedirs_aux w fuel name).
Proof.
  revert name. induction fuel as [|fuel IH]; intros name; cbn;
    [apply preserves_environ_mkdir|].
  intros st. destruct (_ && _).
  - apply preserves_bind; [apply IH | intros; apply preserves_environ_mkdir].
  - apply preserves_environ_mkdir.
Qed.

Lemma preserves_environ_write_file (w : World) (p : string) (blob : N) :
  preserves environ (write_file w p blob).
Proof. intros st. unfold write_file. by destruct (bool_decide _). Qed.

Lemma preserves_environ_chmod (p : string) (m : N) : preserves environ (chmod p m).
Proof.
  intros st. unfold chmod. destruct (files st !! p); [done|].
  by destruct (bool_decide _).
Qed.

Lemma preserves_environ_fetch_and_unpack (w : World) (version : string)
    (no_ssl : bool) (dir filename : string) :
  preserves environ (fetch_and_unpack w version no_ssl dir filename).
Proof.
  unfold fetch_and_unpack, zip_extract, makedirs, read. frame;
    first [ by apply preserves_urlopen
          | apply preserves_environ_makedirs_aux
          | apply preserves_environ_write_file ].
Qed.

Lemma preserves_environ_ensure_executable (fp : string) :
  preserves environ (ensure_executable fp).
Proof. unfold ensure_executable. frame. apply preserves_environ_chmod. Qed.

Lemma preserves_environ_download_chromedriver (w : World)
    (path : option string) (no_ssl : bool) :
  preserves environ (download_chromedriver w path no_ssl).
Proof.
  unfold download_chromedriver. frame;
    first [ by apply preserves_get_chrome_version
          | by apply preserves_get_matched_chromedriver_version
          | apply preserves_driver_directory
          | by apply preserves_check_version
          | apply preserves_environ_fetch_and_unpack
          | apply preserves_environ_ensure_executable ].
Qed.

(** C10: when [download_chromedriver] yields [None], [install] returns
    [None] in the same final state, and the environment of that state,
    [PATH] included, is the one the run started with. *)
Theorem install_soft_failure_keeps_PATH (w : World) (cwd : bool)
    (path : option string) (no_ssl : bool) (st st1 : State) :
  download_chromedriver w (if cwd then Some (getcwd w) else path) no_ssl st
    = (Return None, st1) ->
  install w cwd path no_ssl st = (Return None, st1)
  /\ environ st1 = environ st
  /\ environ st1 !! "PATH" = environ st !! "PATH".
Proof.
  intros Hdl.
  assert (Henv : environ st1 = environ st)
    by exact (preserves_eq environ _ _ _ _
                (preserves_environ_download_chromedriver w _ no_ssl) Hdl).
  split; [|by rewrite Henv].
  unfold install, bind. by rewrite Hdl.
Qed.

Lemma install_soft_failure_keeps_PATH_witness :
  exists st1,
    install (Demo.world 200) false None false (Demo.state 3) = (Return None, st1)
    /\ environ st1 = environ (Demo.state 3)
    /\ environ st1 !! "PATH" = environ (Demo.state 3) !! "PATH".
Proof.
  eexists.
  apply (install_soft_failure_keeps_PATH (Demo.world 200) false None false
           (Demo.state 3)).
  vm_compute. reflexivity.
Defined.

(** ** Fetch & Unpack, step by step *)

Lemma only_adds_dirs_refl (st : State) : only_adds_dirs st st.
Proof. by repeat split. Qed.

Lemma only_adds_dirs_trans (st st1 st2 : State) :
  only_adds_dirs st st1 -> only_adds_dirs st1 st2 -> only_adds_dirs st st2.
Proof.
  intros (Hf & He & Ht & Hd) (Hf' & He' & Ht' & Hd').
  repeat split; [congruence..|set_solver].
Qed.

Lemma mkdir_only_adds_dirs (p : string) (st : State) :
  only_adds_dirs st (snd (mkdir p st)).
Proof.
  unfold mkdir. destruct (_ || _); [apply only_adds_dirs_refl|].
  repeat split; cbn. set_solver.
Qed.

Lemma makedirs_aux_only_adds_dirs (w : World) (fuel : nat) (name : string)
    (st : State) :
  only_adds_dirs st (snd (makedirs_aux w fuel name st)).
Proof.
  revert name st. induction fuel as [|fuel IH]; intros name st; cbn;
    [apply mkdir_only_adds_dirs|].
  destruct (_ && _); [|apply mkdir_only_adds_dirs].
  unfold bind. specialize (IH (path_dirname w name) st).
  destruct (makedirs_aux w fuel (path_dirname w name) st) as [[[]|e] st1];
    [|exact IH].
  eapply only_adds_dirs_trans; [exact IH|apply mkdir_only_adds_dirs].
Qed.

Lemma prepare_directory_only_adds_dirs (w : World) (d : bool) (dir : string)
    (st st1 : State) (r : result unit) :
  (if negb d then makedirs w dir else ret tt) st = (r, st1) ->
  only_adds_dirs st st1.
Proof.
  destruct d; cbn; intros H.
  - injection H as _ <-. apply only_adds_dirs_refl.
  - pose proof (makedirs_aux_only_adds_dirs w (String.length dir) dir st) as Hm.
    unfold makedirs in H. by rewrite H in Hm.
Qed.

Lemma write_file_run (w : World) (p : string) (blob : N) (st st' : State)
    (r : result unit) :
  write_file w p blob st = (r, st') ->
  dirs st' = dirs st /\ trace st' = trace st
  /\ (r = Return tt -> is_Some (files st' !! p)).
Proof.
  unfold write_file. destruct (bool_decide _); intros H; injection H as <- <-.
  - by repeat split.
  - repeat split. intros _. cbn. rewrite lookup_insert_eq. by eexists.
Qed.

Lemma zip_extract_run (w : World) (archive : payload) (name dir : string)
    (st st' : State) (r : result unit) :
  zip_extract w archive name dir st = (r, st') ->
  dirs st' = dirs st /\ trace st' = trace st
  /\ (r = Return tt -> is_Some (files st' !! path_join w dir name)).
Proof.
  unfold zip_extract, bind, lift.
  destruct (zip_members archive) as [members|e].
  - destruct (zip_lookup name members) as [blob|].
    + apply write_file_run.
    + intros H. injection H as <- <-. by repeat split.
  - intros H. injection H as <- <-. by repeat split.
Qed.

(** Every run of the download branch: directories are only added; either
    the GET was never attempted and the branch raised with the files
    untouched, or it was attempted exactly once, and then a failed GET
    raises the error naming the URL with the files untouched, while after
    a successful branch the driver file exists. *)
Lemma fetch_and_unpack_run (w : World) (version : string) (no_ssl : bool)
    (dir filename : string) (st st' : State) (r : result unit) :
  fetch_and_unpack w version no_ssl dir filename st = (r, st') ->
  dirs st ⊆ dirs st'
  /\ ((trace st' = trace st /\ files st' = files st /\ exists e, r = Raise e)
      \/ exists url,
           get_chromedriver_url w version no_ssl = Return url
           /\ trace st' = EvUrlopen url :: trace st
           /\ (archive_get_failed w url ->
               r = Raise (download_failed url) /\ files st' = files st)
           /\ (r = Return tt -> is_Some (files st' !! path_join w dir filename))).
Proof.
  unfold fetch_and_unpack. intros H.
  apply bind_inv in H as [(e & [=] & _)|(d & st0 & [= <- <-] & H)].
  apply bind_inv in H as [(e & Hprep & ->)|([] & st1 & Hprep & H)];
    apply prepare_directory_only_adds_dirs in Hprep as (Hf & He & Ht & Hd).
  { split; [done|]. left. eauto. }
  apply bind_inv in H as [(e & [= Hurl <-] & ->)|(url & st1' & [= Hurl <-] & H)].
  { split; [done|]. left. eauto. }
  unfold try_except, bind, urlopen, read, lift, archive_get_failed in *.
  destruct (http_get w url) as [| |status body|status] eqn:Hget; cbn in H.
  - injection H as <- <-. split; [done|]. right. exists url.
    rewrite Hget. cbn. rewrite Ht, Hf. repeat split; try done.
  - injection H as <- <-. split; [done|]. right. exists url.
    rewrite Hget. cbn. rewrite Ht, Hf. repeat split; try done.
  - destruct ((200 <=? status)%Z && (status <? 300)%Z); cbn in H.
    2: { injection H as <- <-. split; [done|]. right. exists url.
         rewrite Hget. cbn. rewrite Ht, Hf. repeat split; try done. }
    destruct (Z.eqb_spec status 200) as [->|Hne]; cbn in H.
    + apply zip_extract_run in H as (Hd2 & Ht2 & Hfile). cbn in Hd2, Ht2.
      split; [by rewrite Hd2|]. right. exists url. rewrite Ht2, Ht, Hget.
      split; [done|]. split; [done|]. split; [by intros []|done].
    + injection H as <- <-. split; [done|]. right. exists url.
      rewrite Hget. cbn. rewrite Ht, Hf. repeat split; try done.
  - destruct ((200 <=? status)%Z && (status <? 300)%Z); cbn in H.
    2: { injection H as <- <-. split; [done|]. right. exists url.
         rewrite Hget. cbn. rewrite Ht, Hf. repeat split; try done. }
    destruct (Z.eqb_spec status 200) as [->|Hne]; cbn in H.
    + injection H as <- <-. split; [done|]. right. exists url.
      rewrite Hget. cbn. rewrite Ht, Hf. repeat split; try done.
    + injection H as <- <-. split; [done|]. right. exists url.
      rewrite Hget. cbn. rewrite Ht, Hf. repeat split; try done.
Qed.

(** ** The whole run *)

Lemma obs_spawn (no_ssl : bool) (argv : list string) (st : State) :
  obs no_ssl (log (EvSpawn argv) st) = obs no_ssl st.
Proof. reflexivity. Qed.

Lemma obs_index (no_ssl : bool) (st : State) :
  obs no_ssl (log (EvUrlopen (index_url no_ssl)) st) = obs no_ssl st.
Proof. unfold obs. cbn. by rewrite String.eqb_refl. Qed.

(** Every run of [download_chromedriver] either stops before the download
    decision, having changed nothing on disk and made no archive GET, and
    then does not return a path; or reaches the decision for some resolved
    version and driver directory, and continues with [download_tail]. *)
Lemma download_chromedriver_stages (w : World) (path : option string)
    (no_ssl : bool) (st st' : State) (r : result (option string)) :
  download_chromedriver w path no_ssl st = (r, st') ->
  (obs no_ssl st' = obs no_ssl st /\ forall fp, r <> Return (Some fp))
  \/ exists version dir st0 st1 st2 need,
       obs no_ssl st2 = obs no_ssl st
       /\ driver_directory w path (get_major_version version) st0 = (Return dir, st1)
       /\ (need = false ->
           is_Some (files st2 !! path_join w dir
                                    (get_chromedriver_filename (sys_platform w))))
       /\ download_tail w need version no_ssl dir st2 = (r, st').
Proof.
  unfold download_chromedriver. intros H.
  pose proof (preserves_get_chrome_version (obs no_ssl) (obs_spawn no_ssl) w) as P1.
  apply bind_inv in H as [(e & H1 & ->)|(v & s1 & H1 & H)];
    apply (preserves_eq _ _ _ _ _ P1) in H1 as O1.
  { left. by split. }
  destruct v as [[|c0 v0]|]; try (injection H as <- <-; left; by split).
  pose proof (preserves_get_matched_chromedriver_version (obs no_ssl) w
                (String c0 v0) no_ssl (obs_index no_ssl)) as P2.
  apply bind_inv in H as [(e & H2 & ->)|(v & s2 & H2 & H)];
    apply (preserves_eq _ _ _ _ _ P2) in H2 as O2.
  { left. split; [congruence|done]. }
  destruct v as [[|c1 v1]|]; try (injection H as <- <-; left; split; [congruence|done]).
  apply bind_inv in H as [(e & H3 & ->)|(dir & s3 & H3 & H)];
    pose proof (preserves_eq _ _ _ _ _
                  (preserves_driver_directory (obs no_ssl) w path _) H3) as O3.
  { left. split; [congruence|done]. }
  apply bind_inv in H as [(e & [=] & _)|(present & s4 & [= Hpresent <-] & H)].
  apply bind_inv in H as [(e & H5 & ->)|(current & s5 & H5 & H)].
  { left. split; [|done]. destruct present.
    - apply (preserves_eq _ _ _ _ _
               (preserves_check_version (obs no_ssl) (obs_spawn no_ssl) w _ _)) in H5.
      congruence.
    - discriminate. }
  assert (O5 : obs no_ssl s5 = obs no_ssl s3).
  { destruct present.
    - by apply (preserves_eq _ _ _ _ _
               (preserves_check_version (obs no_ssl) (obs_spawn no_ssl) w _ _)) in H5.
    - by injection H5 as _ <-. }
  right. exists (String c1 v1), dir, s2, s3, s5, (negb present || negb current).
  split; [congruence|]. split; [done|]. split; [|exact H].
  intros Hneed. apply orb_false_iff in Hneed as [Hp _].
  apply negb_false_iff in Hp. rewrite Hp in Hpresent.
  assert (Hfiles : files s5 = files s3) by (unfold obs, disk in O5; congruence).
  rewrite Hfiles. by apply bool_decide_eq_true in Hpresent.
Qed.

Lemma archive_url_not_index (w : World) (version : string) (no_ssl : bool)
    (url : string) :
  get_chromedriver_url w version no_ssl = Return url ->
  String.eqb url (index_url no_ssl) = false.
Proof.
  unfold get_chromedriver_url.
  destruct (get_platform_architecture _ _) as [[platform architecture]|e];
    [|done].
  intros [= <-]. by destruct no_ssl.
Qed.

(** The permission step on a file that exists: it succeeds, leaves a file
    with the owner's execute bit, and rewrites the mode (to octal 744) only
    when that bit was missing. *)
Lemma ensure_executable_run (fp : string) (st : State) (f0 : file) :
  files st !! fp = Some f0 ->
  exists st',
    ensure_executable fp st = (Return tt, st')
    /\ dirs st' = dirs st /\ trace st' = trace st /\ environ st' = environ st
    /\ files st' !! fp
       = Some (File (content f0) (if executable f0 then mode f0 else 484))
    /\ (executable f0 = true -> st' = st).
Proof.
  intros Hf. unfold ensure_executable, bind, access_X_OK, chmod. rewrite Hf.
  destruct (executable f0) eqn:Hx; cbn.
  - exists st. repeat split; try done. by destruct f0.
  - rewrite Hf. eexists. split; [reflexivity|]. cbn.
    rewrite lookup_insert_eq. by repeat split.
Qed.

(** Every run of the rest of [download_chromedriver] after the download
    decision: at most one archive GET; if one was made and failed, the run
    raises the error naming its URL with the files untouched; a returned
    path is the driver path, and the run ended with the permission step on
    a file that existed there. *)
Lemma download_tail_run (w : World) (need : bool) (version : string)
    (no_ssl : bool) (dir : string) (st2 st' : State)
    (r : result (option string)) :
  let fp := path_join w dir (get_chromedriver_filename (sys_platform w)) in
  (need = false -> is_Some (files st2 !! fp)) ->
  download_tail w need version no_ssl dir st2 = (r, st') ->
  dirs st2 ⊆ dirs st'
  /\ (exists gets,
        run_gets no_ssl st2 st' gets
        /\ (gets = []
            \/ exists url,
                 gets = [url]
                 /\ (archive_get_failed w url ->
                     r = Raise (download_failed url) /\ files st' = files st2)))
  /\ (forall fp', r = Return (Some fp') ->
        fp' = fp
        /\ exists st_mid f0,
             files st_mid !! fp = Some f0
             /\ ensure_executable fp st_mid = (Return tt, st')).
Proof.
  intros fp Hpresent. unfold download_tail. fold fp. intros H.
  apply bind_inv in H as [(e & Hfetch & ->)|([] & s3 & Hfetch & H)].
  - (* the download branch raised *)
    destruct need; [|discriminate].
    apply fetch_and_unpack_run in Hfetch as (Hd & Hcases).
    split; [done|]. split; [|done].
    destruct Hcases as [(Ht & Hf & _)|(url & Hurl & Ht & Hfail & _)].
    + exists []. split; [unfold run_gets; by rewrite Ht|by left].
    + exists [url]. split.
      2: { right. exists url. split; [reflexivity|]. intros Hbad.
           destruct (Hfail Hbad) as [[= ->] Hfiles]. by split. }
      unfold run_gets. rewrite Ht. cbn.
      by rewrite (archive_url_not_index _ _ _ _ Hurl).
  - (* the download branch, if taken, returned *)
    assert (Hstep :
      dirs st2 ⊆ dirs s3
      /\ is_Some (files s3 !! fp)
      /\ exists gets,
           run_gets no_ssl st2 s3 gets
           /\ (gets = []
               \/ exists url, gets = [url] /\ ~ archive_get_failed w url)).
    { destruct need.
      - apply fetch_and_unpack_run in Hfetch as (Hd & Hcases).
        split; [done|].
        destruct Hcases as [(_ & _ & e & [=])|(url & Hurl & Ht & Hfail & Hfile)].
        split; [by apply Hfile|].
        exists [url]. split.
        + unfold run_gets. rewrite Ht. cbn.
          by rewrite (archive_url_not_index _ _ _ _ Hurl).
        + right. exists url. split; [done|]. intros Hbad.
          by destruct (Hfail Hbad) as [[=] _].
      - injection Hfetch as <-. split; [done|]. split; [by apply Hpresent|].
        exists []. split; [done|by left]. }
    destruct Hstep as (Hd & [f0 Hf0] & gets & Hgets & Hshape).
    destruct (ensure_executable_run fp s3 f0 Hf0)
      as (s4 & Hrun & Hd4 & Ht4 & _ & _ & _).
    unfold bind in H. rewrite Hrun in H. injection H as <- <-.
    split; [by rewrite Hd4|]. split.
    + exists gets. split; [unfold run_gets in *; by rewrite Ht4|].
      destruct Hshape as [->|(url & -> & Hok)]; [by left|].
      right. exists url. split; [done|]. intros Hbad. by destruct Hok.
    + intros fp' [= <-]. split; [done|]. by exists s3, f0.
Qed.

Lemma run_gets_unique (no_ssl : bool) (st st' : State) (g1 g2 : list string) :
  run_gets no_ssl st st' g1 -> run_gets no_ssl st st' g2 -> g1 = g2.
Proof.
  unfold run_gets. intros H1 H2. rewrite H1 in H2. by apply app_inv_tail in H2.
Qed.

(** Every run of [download_chromedriver] removes no directory and makes at
    most one archive GET; if it made one and the GET failed, the run
    raises the error naming the URL and no file has changed. *)
Lemma download_chromedriver_gets (w : World) (path : option string)
    (no_ssl : bool) (st st' : State) (r : result (option string)) :
  download_chromedriver w path no_ssl st = (r, st') ->
  dirs st ⊆ dirs st'
  /\ exists gets,
       run_gets no_ssl st st' gets
       /\ (gets = []
           \/ exists url,
                gets = [url]
                /\ (archive_get_failed w url ->
                    r = Raise (download_failed url) /\ files st' = files st)).
Proof.
  intros H.
  apply download_chromedriver_stages in H
    as [(Hobs & _)|(version & dir & s0 & s1 & s2 & need & Hobs & _ & Hp & Htail)];
    unfold obs, disk in Hobs; injection Hobs as Hf Hd He Hg.
  - split; [by rewrite Hd|]. exists []. split; [|by left].
    unfold run_gets. by rewrite Hg.
  - apply download_tail_run in Htail as (Hd' & (gets & Hgets & Hshape) & _);
      [|exact Hp].
    split; [by rewrite <- Hd|]. exists gets. split.
    + unfold run_gets in *. by rewrite <- Hg.
    + destruct Hshape as [->|(url & -> & Hfail)]; [by left|].
      right. exists url. split; [done|]. intros Hbad.
      destruct (Hfail Hbad) as [-> Hfiles]. split; [done|congruence].
Qed.

(** ** Fetch & Unpack: a failed archive GET *)




(** C7: in every run of [download_chromedriver] that made a GET of an
    archive URL answered with a status other than 200, the run raises the
    RuntimeError naming that URL, every path holds the file it held
    before (so no driver executable was written, in whole or in part), no
    directory was removed and the environment is unchanged. *)
Theorem archive_non_200_leaves_files_untouched (w : World)
    (path : option string) (no_ssl : bool) (st st' : State)
    (r : result (option string)) (gets : list string) (url : string)
    (status : Z) (body : payload) :
  download_chromedriver w path no_ssl st = (r, st') ->
  run_gets no_ssl st st' gets ->
  In url gets ->
  http_get w url = Answered status body ->
  status <> 200%Z ->
  r = Raise (RuntimeError ("Failed to download chromedriver archive: " +:+ url))
  /\ files st' = files st
  /\ dirs st ⊆ dirs st'
  /\ environ st' = environ st.
Proof.
  intros Hrun Hgets Hin Hget Hstatus.
  assert (Henv : environ st' = environ st)
    by exact (preserves_eq environ _ _ _ _
                (preserves_environ_download_chromedriver w path no_ssl) Hrun).
  apply download_chromedriver_gets in Hrun as (Hd & gets' & Hgets' & Hshape).
  rewrite (run_gets_unique _ _ _ _ _ Hgets Hgets') in *.
  destruct Hshape as [->|(url' & -> & Hfail)]; [done|].
  destruct Hin as [->|[]].
  assert (Hbad : archive_get_failed w url) by (unfold archive_get_failed; by rewrite Hget).
  by destruct (Hfail Hbad) as [-> ->].
Qed.

Lemma archive_non_200_leaves_files_untouched_witness :
  fst (Demo.download_run 404)
    = Raise (RuntimeError
        ("Failed to download chromedriver archive: " +:+ Demo.archive_url))
  /\ files (snd (Demo.download_run 404)) = files (Demo.state 1)
  /\ dirs (Demo.state 1) ⊆ dirs (snd (Demo.download_run 404))
  /\ environ (snd (Demo.download_run 404)) = environ (Demo.state 1).
Proof.
  apply (archive_non_200_leaves_files_untouched (Demo.world 404) None false
           (Demo.state 1) (snd (Demo.download_run 404))
           (fst (Demo.download_run 404)) [Demo.archive_url] Demo.archive_url
           404 Demo.archive_body).
  - unfold Demo.download_run. apply surjective_pairing.
  - vm_compute. reflexivity.
  - left. reflexivity.
  - reflexivity.
  - discriminate.
Defined.

(** ** Successful runs *)

Lemma write_file_result (w : World) (p : string) (blob : N) (st st' : State) :
  write_file w p blob st = (Return tt, st') ->
  files st' = <[p := File blob (mode_before_fix w st p)]> (files st).
Proof.
  unfold write_file, mode_before_fix. destruct (bool_decide _); [discriminate|].
  by intros [= <-].
Qed.

(** A run of the download branch that returns has written the driver file,
    with the mode the path had before, or the default mode of a new file,
    and no other file. *)
Lemma fetch_and_unpack_Return (w : World) (version : string) (no_ssl : bool)
    (dir filename : string) (st st' : State) :
  fetch_and_unpack w version no_ssl dir filename st = (Return tt, st') ->
  exists blob,
    files st'
    = <[path_join w dir filename :=
          File blob (mode_before_fix w st (path_join w dir filename))]> (files st).
Proof.
  unfold fetch_and_unpack. intros H.
  apply bind_Return_inv in H as (d & s0 & [= <- <-] & H).
  apply bind_Return_inv in H as ([] & s1 & Hprep & H).
  apply prepare_directory_only_adds_dirs in Hprep as (Hf & _ & _ & _).
  apply bind_Return_inv in H as (url & s2 & [= _ <-] & H).
  apply bind_Return_inv in H as (response & s3 & Htry & H).
  assert (Hf3 : files s3 = files st).
  { unfold try_except, bind, urlopen in Htry.
    destruct (http_get w url) as [| |status body|status]; cbn in Htry;
      try discriminate;
      destruct ((200 <=? status)%Z && (status <? 300)%Z); cbn in Htry;
      try discriminate;
      destruct (negb (status =? 200)%Z); cbn in Htry; try discriminate;
      by injection Htry as _ <-. }
  apply bind_Return_inv in H as (archive & s4 & Hread & H).
  unfold read, lift in Hread. injection Hread as _ <-.
  unfold zip_extract in H.
  apply bind_Return_inv in H as (members & s5 & [= _ <-] & H).
  destruct (zip_lookup filename members) as [blob|]; [|discriminate].
  apply write_file_result in H. exists blob.
  rewrite H. unfold mode_before_fix. by rewrite Hf3.
Qed.

(** C8, as the code has it: after a run of [download_chromedriver] that
    returns the driver path, the file at that path is executable.  Its
    mode is the mode the path had at the start of the run (or, for a file
    the run created, octal 666 less the umask) when that mode has the
    owner's execute bit, and octal 744 otherwise: [os.chmod] replaces the
    mode, so owner read, write and execute are set and the other bits
    become those of 744. *)
Theorem successful_run_sets_executable_bit (w : World) (path : option string)
    (no_ssl : bool) (st st' : State) (fp : string) :
  download_chromedriver w path no_ssl st = (Return (Some fp), st') ->
  exists f,
    files st' !! fp = Some f
    /\ executable f = true
    /\ mode f = (if N.testbit (mode_before_fix w st fp) 6
                 then mode_before_fix w st fp
                 else 484%N)
    /\ (N.testbit (mode_before_fix w st fp) 6 = false ->
        N.land (mode f) 448 = 448%N).
Proof.
  intros H.
  apply download_chromedriver_stages in H
    as [(_ & Hno)|(version & dir & s0 & s1 & s2 & need & Hobs & _ & Hp & Htail)];
    [by destruct (Hno fp)|].
  unfold obs, disk in Hobs. injection Hobs as Hf _ _ _.
  unfold download_tail in Htail.
  set (fp' := path_join w dir (get_chromedriver_filename (sys_platform w))) in *.
  apply bind_Return_inv in Htail as ([] & s3 & Hbranch & Htail).
  apply bind_Return_inv in Htail as ([] & s4 & Hens & [= <- <-]).
  assert (Hfile : exists f0, files s3 !! fp' = Some f0
                             /\ mode f0 = mode_before_fix w st fp').
  { destruct need.
    - apply fetch_and_unpack_Return in Hbranch as [blob Hfiles]. fold fp' in Hfiles.
      eexists. rewrite Hfiles, lookup_insert_eq. split; [done|]. cbn.
      unfold mode_before_fix. by rewrite Hf.
    - injection Hbranch as <-. destruct (Hp eq_refl) as [f0 Hf0].
      exists f0. split; [done|]. unfold mode_before_fix. by rewrite <- Hf, Hf0. }
  destruct Hfile as (f0 & Hf0 & Hmode).
  destruct (ensure_executable_run fp' s3 f0 Hf0)
    as (s4' & Hens' & _ & _ & _ & Hfinal & _).
  assert (s4' = s4) as -> by (pose proof (eq_trans (eq_sym Hens) Hens'); congruence).
  eexists. split; [exact Hfinal|]. unfold executable in *. cbn. rewrite <- Hmode.
  destruct (N.testbit (mode f0) 6) eqn:Hx; by repeat split.
Qed.

Lemma successful_run_sets_executable_bit_witness :
  exists f,
    files (snd (Demo.download_run 200)) !! "/opt/pkg/114/chromedriver" = Some f
    /\ executable f = true
    /\ mode f = (if N.testbit (mode_before_fix (Demo.world 200) (Demo.state 1)
                                "/opt/pkg/114/chromedriver") 6
                 then mode_before_fix (Demo.world 200) (Demo.state 1)
                        "/opt/pkg/114/chromedriver"
                 else 484%N)
    /\ (N.testbit (mode_before_fix (Demo.world 200) (Demo.state 1)
                     "/opt/pkg/114/chromedriver") 6 = false ->
        N.land (mode f) 448 = 448%N).
Proof.
  apply (successful_run_sets_executable_bit (Demo.world 200) None false
           (Demo.state 1) (snd (Demo.download_run 200))
           "/opt/pkg/114/chromedriver").
  vm_compute. reflexivity.
Defined.

(** C8, as stated, fails: an older driver with mode octal 664 is not
    executable, so it is fetched again and its mode replaced by octal 744,
    which no longer has the group's write bit: the mode is not widened. *)
Lemma mode_not_widened_counterexample :
  ~ permission_bits_kept (Demo.world 200) None false Demo.stale_state.
Proof.
  intros H.
  specialize (H "/opt/pkg/114/chromedriver" (File 8 436) (File 7 484)).
  assert (H1 : fst (download_chromedriver (Demo.world 200) None false
                      Demo.stale_state)
               = Return (Some "/opt/pkg/114/chromedriver"))
    by (vm_compute; reflexivity).
  assert (H2 : files Demo.stale_state !! "/opt/pkg/114/chromedriver"
               = Some (File 8 436)) by (vm_compute; reflexivity).
  assert (H3 : files (snd (download_chromedriver (Demo.world 200) None false
                             Demo.stale_state)) !! "/opt/pkg/114/chromedriver"
               = Some (File 7 484)) by (vm_compute; reflexivity).
  specialize (H H1 H2 H3). vm_compute in H. discriminate.
Qed.

(** ** The invocation surface *)




(** * Concrete runs *)

Example find_examples :
  PyStr.find "114.0.5735.16/chromedriver_linux64.zip" "114." = 0%Z
  /\ PyStr.find "2.114.0" "114." = 2%Z
  /\ PyStr.find "113.0" "114." = (-1)%Z.
Proof. by repeat split. Qed.

Example split_examples :
  PyStr.split "." "114.0.5735.90" = ["114"; "0"; "5735"; "90"]
  /\ PyStr.split "/" "114.0.5735.16/chromedriver_linux64.zip"
     = ["114.0.5735.16"; "chromedriver_linux64.zip"]
  /\ PyStr.split "." EmptyString = [EmptyString]
  /\ get_major_version "114" = "114".
Proof. by repeat split. Qed.

Example text_examples :
  PyStr.strip (PyStr.replace "Google Chrome 114.0.5735.90 " "Google Chrome" EmptyString)
    = "114.0.5735.90"
  /\ PyStr.split_ws "    version    REG_SZ    114.0.5735.90" 
     = ["version"; "REG_SZ"; "114.0.5735.90"]
  /\ PyStr.contains "/opt/pkg/114" "/usr/bin:/opt/pkg/1145" = true.
Proof. by repeat split. Qed.

Example re_match_version_examples :
  re_match_version "ChromeDriver 114.0.5735.16 (5f4cc6bd-refs/heads)"
    = Return "114.0.5735.16"
  /\ re_match_version "no version here" = Raise TypeError
  /\ re_match_version (String "010" "114.0") = Raise TypeError
  /\ re_match_version "v..1" = Return "..1".
Proof. by repeat split. Qed.

Example platform_examples :
  get_platform_architecture "linux" 9223372036854775807 = Return ("linux", "64")
  /\ get_platform_architecture "darwin" 9223372036854775807 = Return ("mac", "64")
  /\ get_platform_architecture "win32" 2147483647 = Return ("win", "32")
  /\ (exists msg, get_platform_architecture "linux" 2147483647
                  = Raise (RuntimeError msg))
  /\ (exists msg, get_platform_architecture "cygwin" 9223372036854775807
                  = Raise (RuntimeError msg)).
Proof. repeat split; by eexists. Qed.

(** Scenario A: browser 114.0.5735.90, a matching index entry, no local
    driver: the archive is fetched and unpacked under the directory named
    after the major version, and the file ends with mode octal 744. *)
Example scenario_fresh_install :
  fst (Demo.download_run 200) = Return (Some "/opt/pkg/114/chromedriver")
  /\ files (snd (Demo.download_run 200)) !! "/opt/pkg/114/chromedriver"
     = Some (File 7 484)
  /\ archive_gets false (trace (snd (Demo.download_run 200))) = [Demo.archive_url].
Proof. vm_compute. by repeat split. Qed.

(** Scenario B: the driver is present and reports the resolved version:
    nothing is fetched and the same path is returned. *)
Example scenario_already_installed :
  let st := snd (Demo.download_run 200) in
  check_version (Demo.world 200) "/opt/pkg/114/chromedriver" "114.0.5735.16" st
    = (Return true, log (EvSpawn ["/opt/pkg/114/chromedriver"; "-v"]) st)
  /\ fst (download_chromedriver (Demo.world 200) None false st)
     = Return (Some "/opt/pkg/114/chromedriver")
  /\ run_gets false st
       (snd (download_chromedriver (Demo.world 200) None false st)) []
  /\ files (snd (download_chromedriver (Demo.world 200) None false st)) = files st.
Proof. vm_compute. by repeat split. Qed.

(** The installer step on a search path that does not have the directory
    yet: it is prepended, once. *)
Example update_PATH_fresh_directory :
  exists st1,
    update_PATH (Demo.world 200) "/opt/pkg/114" (Demo.state 1) = (Return tt, st1)
    /\ environ st1 !! "PATH" = Some "/opt/pkg/114:/usr/local/bin:/usr/bin"
    /\ occurrences "linux" "/opt/pkg/114" "/opt/pkg/114:/usr/local/bin:/usr/bin" = 1.
Proof. eexists. vm_compute. by repeat split. Qed.

(** A directory that is a substring of another entry counts as present:
    the step leaves the variable as it is. *)
Example update_PATH_substring_of_entry :
  let st := set_environ {[ "PATH" := "/usr/bin:/opt/pkg/1145" ]} (Demo.state 1) in
  exists st1,
    update_PATH (Demo.world 200) "/opt/pkg/114" st = (Return tt, st1)
    /\ environ st1 !! "PATH" = Some "/usr/bin:/opt/pkg/1145"
    /\ occurrences "linux" "/opt/pkg/114" "/usr/bin:/opt/pkg/1145" = 0.
Proof. eexists. vm_compute. by repeat split. Qed.

(** With the flag set the supplied path is not looked at: a path that is
    no directory does no harm, and the driver lands under the working
    directory. *)
Example install_cwd_run :
  fst (install (Demo.world 200) true (Some "/nowhere") false (Demo.state 1))
    = Return (Some "/home/user/114/chromedriver")
  /\ fst (install (Demo.world 200) false (Some "/nowhere") false (Demo.state 1))
     = Raise (ValueError "Invalid path: /nowhere").
Proof. vm_compute. by split. Qed.

(** * Further properties *)

(** ** find_binary_in_path *)

Lemma usable_binary_decide (st : State) (p : string) :
  usable_binary st p
  <-> (bool_decide (is_Some (files st !! p))
       && match files st !! p with
          | Some f => executable f
          | None => bool_decide (p ∈ dirs st)
          end) = true.
Proof.
  unfold usable_binary. destruct (files st !! p) as [f|] eqn:Hf.
  - rewrite bool_decide_eq_true_2 by (by eexists). cbn. split.
    + by intros (f' & [= <-] & Hx).
    + intros Hx. by exists f.
  - rewrite bool_decide_eq_false_2 by (by intros [? ?]). cbn. split.
    + by intros (f' & [=] & _).
    + done.
Qed.

Lemma find_binary_loop_first_usable (w : World) (filename : string)
    (directories : list string) (st : State) :
  exists r,
    find_binary_loop w filename directories st = (Return r, st)
    /\ first_usable w st filename directories r.
Proof.
  induction directories as [|d rest (r & Hrun & Hspec)]; cbn.
  - exists None. split; [done|]. constructor.
  - unfold bind, isfile, access_X_OK, ret.
    pose proof (usable_binary_decide st (candidate w filename d)) as Hdec.
    unfold candidate in Hdec.
    destruct (bool_decide (is_Some (files st !! _))) eqn:Hfile; cbn in *.
    + destruct (match files st !! _ with Some f => executable f | None => _ end)
        eqn:Hx; cbn.
      * exists (Some (candidate w filename d)). split; [done|].
        exists [], d, rest. split; [done|]. split; [constructor|].
        split; [done|]. by apply Hdec.
      * exists r. split; [exact Hrun|].
        assert (Hno : ~ usable_binary st (candidate w filename d))
          by (intros Hu; apply Hdec in Hu; discriminate).
        destruct r as [b|]; cbn in *.
        -- destruct Hspec as (pre & d' & post & -> & Hpre & Hb & Hu).
           exists (d :: pre), d', post. split; [done|].
           split; [by constructor|done].
        -- by constructor.
    + exists r. split; [exact Hrun|].
      assert (Hno : ~ usable_binary st (candidate w filename d))
        by (intros Hu; apply Hdec in Hu; discriminate).
      destruct r as [b|]; cbn in *.
      * destruct Hspec as (pre & d' & post & -> & Hpre & Hb & Hu).
        exists (d :: pre), d', post. split; [done|].
        split; [by constructor|done].
      * by constructor.
Qed.

(** X1: [find_binary_in_path] never raises and changes nothing.  Without a
    [PATH] variable it returns [None]; otherwise it returns the absolute
    joined path for the first directory of [PATH], in order, at which an
    executable regular file of that name exists, and [None] when no
    directory has one. *)
Theorem find_binary_in_path_first_usable (w : World) (filename : string)
    (st : State) :
  exists r,
    find_binary_in_path w filename st = (Return r, st)
    /\ match environ st !! "PATH" with
       | None => r = None
       | Some p =>
           first_usable w st filename
             (PyStr.split (separator_char (sys_platform w)) p) r
       end.
Proof.
  unfold find_binary_in_path. destruct (environ st !! "PATH") as [p|].
  - apply find_binary_loop_first_usable.
  - by exists None.
Qed.

Example find_binary_in_path_skips_non_executable :
  find_binary_in_path (Demo.world 200) "chromedriver" Cases.two_drivers
    = (Return (Some "/b/chromedriver"), Cases.two_drivers)
  /\ find_binary_in_path (Demo.world 200) "geckodriver" Cases.two_drivers
     = (Return None, Cases.two_drivers)
  /\ find_binary_in_path (Demo.world 200) "chromedriver"
       (set_environ ∅ Cases.two_drivers)
     = (Return None, set_environ ∅ Cases.two_drivers).
Proof. vm_compute. by repeat split. Qed.

(** ** Installed-Version Reader *)

Lemma which_state (w : World) (name : string) (st : State) :
  snd (which w name st) = st.
Proof. reflexivity. Qed.

Lemma first_on_path_outcome (w : World) (names : list string) (st : State) :
  match first_on_path w names st with
  | (Return p, st') =>
      st' = st
      /\ exists pre name post,
           names = pre ++ name :: post
           /\ Forall (not_on_path w st) pre
           /\ fst (which w name st) = Return (Some p)
  | (Raise e, st') =>
      st' = st
      /\ e = ValueError "No chrome executable found on PATH"
      /\ Forall (not_on_path w st) names
  end.
Proof.
  induction names as [|name names IH]; cbn [first_on_path].
  - split; [done|]. split; [done|]. constructor.
  - unfold bind. destruct (which w name st) as [r s1] eqn:Hwhich.
    assert (s1 = st) as -> by (by rewrite <- (which_state w name st), Hwhich).
    assert (exists o, r = Return o) as [o ->].
    { unfold which in Hwhich. injection Hwhich as <-. by eexists. }
    destruct o as [p|]; unfold ret; cbv beta iota.
    + split; [done|]. exists [], name, names. split; [done|].
      split; [constructor|]. by rewrite Hwhich.
    + assert (Hno : not_on_path w st name) by (unfold not_on_path; by rewrite Hwhich).
      destruct (first_on_path w names st) as [[p|e] s2].
      * destruct IH as (-> & pre & name' & post & -> & Hpre & Hfound).
        split; [done|]. exists (name :: pre), name', post.
        split; [done|]. split; [by constructor|done].
      * destruct IH as (-> & -> & Hall). split; [done|]. split; [done|].
        by constructor.
Qed.

(** X2: [get_linux_executable_path] changes nothing; it returns what
    [shutil.which] finds for the first of the six browser names, in order
    of preference, that is on the search path, and raises the ValueError
    "No chrome executable found on PATH" exactly when none of them is. *)
Theorem get_linux_executable_path_first_found (w : World) (st : State) :
  match get_linux_executable_path w st with
  | (Return p, st') =>
      st' = st
      /\ exists pre name post,
           linux_browser_names = pre ++ name :: post
           /\ Forall (not_on_path w st) pre
           /\ fst (which w name st) = Return (Some p)
  | (Raise e, st') =>
      st' = st
      /\ e = ValueError "No chrome executable found on PATH"
      /\ Forall (not_on_path w st) linux_browser_names
  end.
Proof. apply first_on_path_outcome. Qed.

Example get_linux_executable_path_prefers_earlier_name :
  let st := set_files {[ "/usr/bin/chromium" := File 1 493;
                         "/usr/bin/google-chrome-beta" := File 3 493 ]}
              (Demo.state 1) in
  get_linux_executable_path (Demo.world 200) st
    = (Return "/usr/bin/google-chrome-beta", st).
Proof. vm_compute. reflexivity. Qed.

Lemma bind_never_None {A : Type} (m : M A) (k : A -> M (option string))
    (st : State) :
  (forall a st1, fst (k a st1) <> Return None) ->
  fst (bind m k st) <> Return None.
Proof.
  intros Hk. unfold bind. destruct (m st) as [[a|e] st1]; [apply Hk|done].
Qed.

(** X3: [get_chrome_version] never returns [None]: on an unsupported
    platform it raises the RuntimeError of [get_platform_architecture]
    before starting any process, and on a supported one every path through
    it ends in a string or an exception, so the final [return] without a
    value is never reached. *)
Theorem get_chrome_version_never_None (w : World) (st : State) :
  fst (get_chrome_version w st) <> Return None
  /\ match get_platform_architecture (sys_platform w) (sys_maxsize w) with
     | Return _ => True
     | Raise e => get_chrome_version w st = (Raise e, st)
     end.
Proof.
  unfold get_chrome_version. split.
  - unfold bind at 1, lift, get_platform_architecture.
    destruct (_ && _); [|destruct (String.eqb _ _); [|destruct (PyStr.startswith _ _)]];
      cbn [fst String.eqb Ascii.eqb Bool.eqb]; try done.
    + repeat (apply bind_never_None; intros). done.
    + repeat (apply bind_never_None; intros). done.
    + apply bind_never_None. intros out s1.
      destruct (bytes_truthy out);
        repeat (apply bind_never_None; intros); done.
  - unfold bind, lift. by destruct (get_platform_architecture _ _).
Qed.

(** X4: on 64-bit Linux, when none of the six browser names is on the
    search path, [get_chrome_version], [download_chromedriver] and
    [install] all raise the ValueError "No chrome executable found on
    PATH": the missing browser is not turned into the [None] result.
    Nothing is changed and nothing is attempted. *)
Theorem linux_browser_missing_raises (w : World) (cwd : bool)
    (path : option string) (no_ssl : bool) (st : State) :
  get_platform_architecture (sys_platform w) (sys_maxsize w)
    = Return ("linux", "64") ->
  Forall (not_on_path w st) linux_browser_names ->
  get_chrome_version w st
    = (Raise (ValueError "No chrome executable found on PATH"), st)
  /\ download_chromedriver w path no_ssl st
     = (Raise (ValueError "No chrome executable found on PATH"), st)
  /\ install w cwd path no_ssl st
     = (Raise (ValueError "No chrome executable found on PATH"), st).
Proof.
  intros Hplatform Hmissing.
  assert (Hpath : get_linux_executable_path w st
                  = (Raise (ValueError "No chrome executable found on PATH"), st)).
  { pose proof (first_on_path_outcome w linux_browser_names st) as H.
    change (first_on_path w linux_browser_names st)
      with (get_linux_executable_path w st) in H.
    destruct (get_linux_executable_path w st) as [[p|e] st'].
    - destruct H as (_ & pre & name & post & Hnames & _ & Hfound).
      assert (Hin : In name linux_browser_names)
        by (rewrite Hnames; apply in_or_app; right; by left).
      rewrite Forall_forall in Hmissing. apply list_elem_of_In in Hin.
      specialize (Hmissing name Hin). unfold not_on_path in Hmissing. congruence.
    - by destruct H as (-> & -> & _). }
  assert (Hreader : get_chrome_version w st
                    = (Raise (ValueError "No chrome executable found on PATH"), st)).
  { unfold get_chrome_version. unfold bind at 1, lift. rewrite Hplatform.
    cbn [fst String.eqb Ascii.eqb Bool.eqb]. unfold bind at 1.
    by rewrite Hpath. }
  assert (Hdl : forall p, download_chromedriver w p no_ssl st
                = (Raise (ValueError "No chrome executable found on PATH"), st)).
  { intros p. unfold download_chromedriver, bind. by rewrite Hreader. }
  split; [done|]. split; [apply Hdl|].
  unfold install, bind. by rewrite Hdl.
Qed.

Lemma linux_browser_missing_raises_witness :
  get_chrome_version (Demo.world 200) Cases.no_browser
    = (Raise (ValueError "No chrome executable found on PATH"), Cases.no_browser)
  /\ download_chromedriver (Demo.world 200) None false Cases.no_browser
     = (Raise (ValueError "No chrome executable found on PATH"), Cases.no_browser)
  /\ install (Demo.world 200) false None false Cases.no_browser
     = (Raise (ValueError "No chrome executable found on PATH"), Cases.no_browser).
Proof.
  apply (linux_browser_missing_raises (Demo.world 200) false None false
           Cases.no_browser).
  - reflexivity.
  - repeat constructor.
Defined.

(** X5: whatever they return or raise, the Installed-Version Reader and
    the Local Binary Inspector only start child processes: files,
    directories and environment are as before, and no [urlopen] call is
    made. *)
Theorem reader_and_inspector_only_spawn (w : World)
    (binary required_version : string) (st : State) :
  disk (snd (get_chrome_version w st)) = disk st
  /\ urlopens (trace (snd (get_chrome_version w st))) = urlopens (trace st)
  /\ disk (snd (check_version w binary required_version st)) = disk st
  /\ urlopens (trace (snd (check_version w binary required_version st)))
     = urlopens (trace st).
Proof.
  split; [|split; [|split]].
  - by apply (preserves_get_chrome_version disk).
  - by apply (preserves_get_chrome_version (fun s => urlopens (trace s))).
  - by apply (preserves_check_version disk).
  - by apply (preserves_check_version (fun s => urlopens (trace s))).
Qed.

(** X6: a failure to fetch the index is not caught anywhere: when the
    browser version was read and the GET of the index fails with an error
    (the URLError of [urlopen] when the request cannot be sent or the
    answer is outside 2xx, the connection's error when it is lost before
    the answer or while the body is read), [download_chromedriver] and
    [install] raise that same error after that single GET, with disk and
    environment as the reader left them. *)
Theorem index_fetch_failure_escapes (w : World) (cwd : bool)
    (path : option string) (no_ssl : bool) (st s1 : State) (v : string)
    (e : exn) :
  get_chrome_version w st = (Return (Some v), s1) ->
  v <> EmptyString ->
  fetch_error (http_get w (index_url no_ssl)) = Some e ->
  download_chromedriver w path no_ssl st
    = (Raise e, log (EvUrlopen (index_url no_ssl)) s1)
  /\ install w cwd path no_ssl st
     = (Raise e, log (EvUrlopen (index_url no_ssl)) s1)
  /\ disk s1 = disk st.
Proof.
  intros Hreader Hv Hbad.
  assert (Hidx : forall version,
            get_matched_chromedriver_version w version no_ssl s1
            = (Raise e, log (EvUrlopen (index_url no_ssl)) s1)).
  { intros version.
    unfold get_matched_chromedriver_version, bind, urlopen, read, lift.
    unfold fetch_error in Hbad.
    destruct (http_get w (index_url no_ssl)) as [| |status body|status];
      try (by injection Hbad as <-);
      destruct ((200 <=? status)%Z && (status <? 300)%Z); cbn;
      try discriminate; by injection Hbad as <-. }
  assert (Hdl : forall p, download_chromedriver w p no_ssl st
                = (Raise e, log (EvUrlopen (index_url no_ssl)) s1)).
  { intros p. unfold download_chromedriver. unfold bind at 1. rewrite Hreader.
    destruct v as [|c v']; [done|]. unfold bind at 1. by rewrite Hidx. }
  split; [apply Hdl|]. split.
  - unfold install, bind. by rewrite Hdl.
  - exact (preserves_eq disk _ _ _ _
             (preserves_get_chrome_version disk (fun _ _ => eq_refl) w) Hreader).
Qed.

Lemma index_fetch_failure_escapes_witness :
  download_chromedriver Cases.offline None false (Demo.state 1)
    = (Raise URLError,
       log (EvUrlopen (index_url false))
         (log (EvSpawn ["/usr/bin/google-chrome"; "--version"]) (Demo.state 1)))
  /\ install Cases.offline false None false (Demo.state 1)
     = (Raise URLError,
        log (EvUrlopen (index_url false))
          (log (EvSpawn ["/usr/bin/google-chrome"; "--version"]) (Demo.state 1)))
  /\ disk (log (EvSpawn ["/usr/bin/google-chrome"; "--version"]) (Demo.state 1))
     = disk (Demo.state 1).
Proof.
  apply (index_fetch_failure_escapes Cases.offline false None false
           (Demo.state 1)
           (log (EvSpawn ["/usr/bin/google-chrome"; "--version"]) (Demo.state 1))
           "114.0.5735.90" URLError).
  - vm_compute. reflexivity.
  - discriminate.
  - vm_compute. reflexivity.
Defined.

(** ** Local Binary Inspector: what can be matched *)

Lemma check_version_true_text (w : World) (binary required_version : string)
    (st st' : State) :
  check_version w binary required_version st = (Return true, st') ->
  exists text, re_match_version text = Return required_version.
Proof.
  unfold check_version, check_output, try_except, bind, spawn, lift, ret, raise.
  destruct (files st !! binary) as [f|]; cbn; [|discriminate].
  destruct (executable f); cbn; [|discriminate].
  destruct (exec w (content f) [binary; "-v"]) as [e|status out]; cbn;
    [discriminate|].
  destruct (status =? 0)%Z; cbn; [|discriminate].
  destruct out as [text|]; cbn; [|discriminate].
  destruct (re_match_version text) as [v|e] eqn:Hre; cbn; [|discriminate].
  destruct (String.eqb_spec v required_version) as [->|Hne]; cbn;
    [|discriminate].
  intros _. by exists text.
Qed.

(** X7: [check_version] can only answer [True] for a required version that
    is a non-empty string of digits and dots: for any other required
    version (a suffix such as "-beta", a space, the empty string) it
    answers [False] whatever the binary prints, so the driver is fetched
    again on every run. *)
Theorem check_version_true_only_numeric (w : World)
    (binary required_version : string) (st st' : State) :
  check_version w binary required_version st = (Return true, st') ->
  required_version <> EmptyString
  /\ string_forall digit_or_dot required_version = true.
Proof.
  intros H. apply check_version_true_text in H as [text Hre].
  apply re_match_version_spec in Hre as (pre & post & _ & _ & Hne & Hall & _).
  by split.
Qed.

Lemma check_version_true_only_numeric_witness :
  "114.0.5735.16" <> EmptyString
  /\ string_forall digit_or_dot "114.0.5735.16" = true.
Proof.
  apply (check_version_true_only_numeric (Demo.world 200)
           "/opt/pkg/114/chromedriver" "114.0.5735.16" Cases.installed
           (log (EvSpawn ["/opt/pkg/114/chromedriver"; "-v"]) Cases.installed)).
  vm_compute. reflexivity.
Defined.

(** ** Installed-Version Reader: the shape of the version *)

Lemma rstrip_cons (c : ascii) (s : string) :
  PyStr.rstrip (String c s)
  = match PyStr.rstrip s with
    | EmptyString =>
        if PyStr.isspace c then EmptyString else String c EmptyString
    | String d r => String c (String d r)
    end.
Proof. cbn. by destruct (PyStr.rstrip s). Qed.

Lemma lstrip_starts_clean (s : string) : starts_clean (PyStr.lstrip s).
Proof.
  induction s as [|c s IH]; cbn; [done|].
  destruct (PyStr.isspace c) eqn:Hc; [exact IH|]. cbn. exact Hc.
Qed.

Lemma lstrip_clean (t : string) : starts_clean t -> PyStr.lstrip t = t.
Proof. destruct t as [|c t]; cbn; [done|]. by intros ->. Qed.

Lemma rstrip_starts_clean (t : string) :
  starts_clean t -> starts_clean (PyStr.rstrip t).
Proof.
  destruct t as [|c t]; [done|]. unfold starts_clean at 1. intros Hc.
  rewrite rstrip_cons. destruct (PyStr.rstrip t); cbn; by rewrite ?Hc.
Qed.

Lemma rstrip_idempotent (t : string) :
  PyStr.rstrip (PyStr.rstrip t) = PyStr.rstrip t.
Proof.
  induction t as [|c t IH]; [done|]. rewrite rstrip_cons.
  destruct (PyStr.rstrip t) as [|d r] eqn:Hr.
  - destruct (PyStr.isspace c) eqn:Hc; [done|].
    rewrite rstrip_cons. cbn. by rewrite Hc.
  - by rewrite rstrip_cons, IH.
Qed.

Lemma strip_idempotent (s : string) :
  PyStr.strip (PyStr.strip s) = PyStr.strip s.
Proof.
  unfold PyStr.strip.
  rewrite (lstrip_clean (PyStr.rstrip (PyStr.lstrip s)))
    by apply rstrip_starts_clean, lstrip_starts_clean.
  apply rstrip_idempotent.
Qed.

Lemma strip_without_space (v : string) :
  string_forall (fun c => negb (PyStr.isspace c)) v = true ->
  PyStr.strip v = v.
Proof.
  intros Hv. unfold PyStr.strip.
  assert (Hl : PyStr.lstrip v = v).
  { destruct v as [|c v]; [done|]. cbn in *.
    apply andb_true_iff in Hv as [Hc _]. apply negb_true_iff in Hc. by rewrite Hc. }
  rewrite Hl. induction v as [|c v IH]; [done|]. cbn in *.
  apply andb_true_iff in Hv as [Hc Hv]. apply negb_true_iff in Hc.
  rewrite IH; [|done|].
  - destruct v; by rewrite ?Hc.
  - destruct v as [|d v]; [done|]. cbn in *.
    apply andb_true_iff in Hv as [Hd _]. apply negb_true_iff in Hd. by rewrite Hd.
Qed.

Lemma string_forall_app (P : ascii -> bool) (a b : string) :
  string_forall P (a +:+ b) = string_forall P a && string_forall P b.
Proof.
  induction a as [|c a IH]; [done|].
  change (String c a +:+ b) with (String c (a +:+ b)). cbn.
  by rewrite IH, andb_assoc.
Qed.

Lemma split_ws_aux_words (word : option string) (s : string) :
  match word with
  | Some x => string_forall (fun c => negb (PyStr.isspace c)) x = true
  | None => True
  end ->
  Forall (fun x => string_forall (fun c => negb (PyStr.isspace c)) x = true)
    (PyStr.split_ws_aux word s).
Proof.
  revert word. induction s as [|c s IH]; intros word Hword; cbn.
  - destruct word; by repeat constructor.
  - destruct (PyStr.isspace c) eqn:Hc.
    + destruct word; [constructor; [done|]|]; by apply IH.
    + destruct word as [x|]; apply IH.
      * rewrite string_forall_app, Hword. cbn. by rewrite Hc.
      * cbn. by rewrite Hc.
Qed.

(** X8: every version string that [get_chrome_version] returns has no
    white space at either end ([strip] leaves it as it is), on each of the
    three platforms. *)
Theorem get_chrome_version_is_stripped (w : World) (st st' : State)
    (v : string) :
  get_chrome_version w st = (Return (Some v), st') ->
  PyStr.strip v = v.
Proof.
  unfold get_chrome_version. intros H.
  apply bind_Return_inv in H as (pa & s0 & _ & H).
  destruct (String.eqb pa.1 "linux").
  { apply bind_Return_inv in H as (? & ? & _ & H).
    apply bind_Return_inv in H as (? & ? & _ & H).
    apply bind_Return_inv in H as (? & ? & _ & [= <- _]).
    apply strip_idempotent. }
  destruct (String.eqb pa.1 "mac").
  { apply bind_Return_inv in H as (? & ? & _ & H).
    apply bind_Return_inv in H as (? & ? & _ & [= <- _]).
    apply strip_idempotent. }
  destruct (String.eqb pa.1 "win"); [|discriminate].
  apply bind_Return_inv in H as (out & ? & _ & H).
  destruct (bytes_truthy out).
  - apply bind_Return_inv in H as (text & ? & _ & H).
    apply bind_Return_inv in H as (version & ? & Hlast & [= <- _]).
    unfold lift, last_item in Hlast.
    pose proof (split_ws_aux_words None (PyStr.strip text) I) as Hwords.
    fold (PyStr.split_ws (PyStr.strip text)) in Hwords.
    apply Forall_rev in Hwords.
    destruct (rev (PyStr.split_ws (PyStr.strip text))) as [|word0 words0];
      [discriminate|].
    injection Hlast as <- _. apply strip_without_space.
    by inversion Hwords.
  - apply bind_Return_inv in H as (? & ? & _ & H).
    apply bind_Return_inv in H as (? & ? & _ & [= <- _]).
    apply strip_idempotent.
Qed.

Lemma get_chrome_version_is_stripped_witness :
  PyStr.strip "114.0.5735.90" = "114.0.5735.90".
Proof.
  apply (get_chrome_version_is_stripped (Demo.world 200) (Demo.state 1)
           (log (EvSpawn ["/usr/bin/google-chrome"; "--version"]) (Demo.state 1))).
  vm_compute. reflexivity.
Defined.

(** ** Remote Version Resolver: the resolved version *)

Lemma string_app_assoc (a b c : string) : (a +:+ b) +:+ c = a +:+ (b +:+ c).
Proof.
  induction a as [|x a IH]; [done|].
  change (String x a +:+ b) with (String x (a +:+ b)).
  change (String x (a +:+ b) +:+ c) with (String x ((a +:+ b) +:+ c)).
  change (String x a +:+ (b +:+ c)) with (String x (a +:+ (b +:+ c))).
  by rewrite IH.
Qed.

Lemma hd_split_free (sep : ascii) (s : string) :
  free_of sep (hd EmptyString (PyStr.split sep s)) = true.
Proof.
  unfold free_of. induction s as [|c s IH]; cbn; [done|].
  destruct (Ascii.eqb c sep) eqn:Hc; [done|].
  pose proof (split_nonempty sep s) as Hnil.
  destruct (PyStr.split sep s) as [|piece pieces]; [done|]. cbn in *.
  by rewrite Hc, IH.
Qed.

Lemma hd_split_app (sep : ascii) (a b : string) :
  free_of sep a = true ->
  hd EmptyString (PyStr.split sep (a +:+ b))
  = a +:+ hd EmptyString (PyStr.split sep b).
Proof.
  unfold free_of. induction a as [|c a IH]; intros Ha; [done|].
  change (String c a +:+ b) with (String c (a +:+ b)). cbn in *.
  apply andb_true_iff in Ha as [Hc Ha]. apply negb_true_iff in Hc.
  rewrite Hc. specialize (IH Ha).
  pose proof (split_nonempty sep (a +:+ b)) as Hnil.
  destruct (PyStr.split sep (a +:+ b)) as [|piece pieces]; [done|].
  cbn in *. by rewrite IH.
Qed.

Lemma match_keys_Some (version : string) (keys : list (option string))
    (cv : string) :
  match_keys version keys = Return (Some cv) ->
  exists text,
    String.prefix (get_major_version version +:+ ".") text = true
    /\ cv = hd EmptyString (PyStr.split "/" text).
Proof.
  induction keys as [|[text|] keys IH]; cbn; [done| |done].
  rewrite find_zero_iff.
  destruct (String.prefix _ text) eqn:Hp; [|exact IH].
  intros [= <-]. by exists text.
Qed.

(** X9: when the major version of the installed browser holds no slash,
    a version the resolver returns starts with that major version and a
    dot, holds no slash itself, and has the same major version: the
    directory of the driver is named after the browser's major version. *)
Theorem resolved_version_keeps_major (w : World) (version : string)
    (no_ssl : bool) (st st' : State) (cv : string) :
  get_matched_chromedriver_version w version no_ssl st = (Return (Some cv), st') ->
  free_of "/" (get_major_version version) = true ->
  starts_with cv (get_major_version version +:+ ".")
  /\ free_of "/" cv = true
  /\ get_major_version cv = get_major_version version.
Proof.
  intros H Hfree. unfold get_matched_chromedriver_version in H.
  apply bind_Return_inv in H as (response & s1 & _ & H).
  apply bind_Return_inv in H as (doc & s2 & _ & H).
  apply bind_Return_inv in H as (keys & s3 & _ & H).
  unfold lift in H. injection H as H _.
  apply match_keys_Some in H as (text & Hp & ->).
  apply prefix_split in Hp as [tail ->].
  assert (Hfree' : free_of "/" (get_major_version version +:+ ".") = true).
  { unfold free_of in *. by rewrite string_forall_app, Hfree. }
  rewrite hd_split_app by done.
  split; [by eexists|]. split.
  - unfold free_of in *. rewrite string_forall_app, Hfree'.
    apply (hd_split_free "/" tail).
  - rewrite string_app_assoc. unfold get_major_version at 1.
    change ("." +:+ hd EmptyString (PyStr.split "/" tail))
      with (String "." (hd EmptyString (PyStr.split "/" tail))).
    rewrite split_at_sep; [done|]. apply (hd_split_free "." version).
Qed.

Lemma resolved_version_keeps_major_witness :
  starts_with "114.0.5735.16" (get_major_version "114.0.5735.90" +:+ ".")
  /\ free_of "/" "114.0.5735.16" = true
  /\ get_major_version "114.0.5735.16" = get_major_version "114.0.5735.90".
Proof.
  apply (resolved_version_keeps_major (Demo.world 200) "114.0.5735.90" false
           (Demo.state 1) (log (EvUrlopen (index_url false)) (Demo.state 1))).
  - vm_compute. reflexivity.
  - reflexivity.
Defined.

(** Without the hypothesis the resolved version can be empty: a major
    version that starts with a slash resolves to the empty string. *)
Example resolved_version_with_slash :
  match_keys "/x.1" [Some "/x.1/driver.zip"] = Return (Some EmptyString).
Proof. reflexivity. Qed.

(** ** The supplied target directory *)

(** X10: a supplied path that is not an existing directory makes
    [download_chromedriver] raise the ValueError "Invalid path: <path>",
    but only after the browser version was read and a driver version
    resolved; by then nothing on disk or in the environment has changed
    and no archive GET was made. *)
Theorem invalid_path_raises_after_resolution (w : World) (no_ssl : bool)
    (st s1 s2 : State) (v cv p : string) :
  get_chrome_version w st = (Return (Some v), s1) ->
  v <> EmptyString ->
  get_matched_chromedriver_version w v no_ssl s1 = (Return (Some cv), s2) ->
  cv <> EmptyString ->
  p <> EmptyString ->
  p ∉ dirs st ->
  download_chromedriver w (Some p) no_ssl st
    = (Raise (ValueError ("Invalid path: " +:+ p)), s2)
  /\ disk s2 = disk st
  /\ run_gets no_ssl st s2 [].
Proof.
  intros Hreader Hv Hmatch Hcv Hp Hdir.
  pose proof (preserves_eq _ _ _ _ _
    (preserves_get_chrome_version (obs no_ssl) (obs_spawn no_ssl) w) Hreader) as O1.
  pose proof (preserves_eq _ _ _ _ _
    (preserves_get_matched_chromedriver_version (obs no_ssl) w v no_ssl
       (obs_index no_ssl)) Hmatch) as O2.
  assert (Hobs : obs no_ssl s2 = obs no_ssl st) by congruence.
  unfold obs, disk in Hobs. injection Hobs as Hf Hd He Hg.
  split; [|split; [unfold disk; congruence | unfold run_gets; by rewrite Hg]].
  unfold download_chromedriver. unfold bind at 1. rewrite Hreader.
  destruct v as [|c0 v0]; [done|]. unfold bind at 1. rewrite Hmatch.
  destruct cv as [|c1 v1]; [done|]. unfold bind at 1.
  destruct p as [|c2 p2]; [done|].
  unfold driver_directory, bind, isdir.
  rewrite bool_decide_eq_false_2 by (by rewrite Hd). reflexivity.
Qed.

Lemma invalid_path_raises_after_resolution_witness :
  download_chromedriver (Demo.world 200) (Some "/nowhere") false (Demo.state 1)
    = (Raise (ValueError ("Invalid path: " +:+ "/nowhere")),
       log (EvUrlopen (index_url false))
         (log (EvSpawn ["/usr/bin/google-chrome"; "--version"]) (Demo.state 1)))
  /\ disk (log (EvUrlopen (index_url false))
             (log (EvSpawn ["/usr/bin/google-chrome"; "--version"]) (Demo.state 1)))
     = disk (Demo.state 1)
  /\ run_gets false (Demo.state 1)
       (log (EvUrlopen (index_url false))
          (log (EvSpawn ["/usr/bin/google-chrome"; "--version"]) (Demo.state 1)))
       [].
Proof.
  apply (invalid_path_raises_after_resolution (Demo.world 200) false
           (Demo.state 1)
           (log (EvSpawn ["/usr/bin/google-chrome"; "--version"]) (Demo.state 1))
           (log (EvUrlopen (index_url false))
              (log (EvSpawn ["/usr/bin/google-chrome"; "--version"]) (Demo.state 1)))
           "114.0.5735.90" "114.0.5735.16" "/nowhere").
  - vm_compute. reflexivity.
  - discriminate.
  - vm_compute. reflexivity.
  - discriminate.
  - discriminate.
  - vm_compute. set_solver.
Defined.

(** ** install and the environment *)

Lemma update_PATH_only_PATH (w : World) (dir k : string) (st : State) :
  k <> "PATH" ->
  environ (snd (update_PATH w dir st)) !! k = environ st !! k.
Proof.
  intros Hk. unfold update_PATH.
  destruct (environ st !! "PATH") as [old|]; cbn.
  - destruct (negb (PyStr.contains dir old)); cbn; [|done].
    by rewrite lookup_insert_ne.
  - by rewrite lookup_insert_ne.
Qed.

(** X11: whatever [install] returns or raises, every environment variable
    other than [PATH] has the value it had before. *)
Theorem install_touches_only_PATH (w : World) (cwd : bool)
    (path : option string) (no_ssl : bool) (st : State) (k : string) :
  k <> "PATH" ->
  environ (snd (install w cwd path no_ssl st)) !! k = environ st !! k.
Proof.
  intros Hk. unfold install, bind.
  pose proof (preserves_environ_download_chromedriver w
                (if cwd then Some (getcwd w) else path) no_ssl st) as Henv.
  destruct (download_chromedriver w _ no_ssl st) as [[[[|c f]|]|e] s1];
    cbn in Henv; cbn; try (by rewrite Henv).
  pose proof (update_PATH_only_PATH w (path_dirname w (String c f)) k s1 Hk) as Hup.
  destruct (update_PATH w (path_dirname w (String c f)) s1) as [[[]|e] s2];
    cbn in *; congruence.
Qed.

Lemma install_touches_only_PATH_witness :
  environ (snd (install (Demo.world 200) false None false
                  (set_environ {[ "PATH" := "/usr/bin"; "HOME" := "/home/user" ]}
                     (Demo.state 1)))) !! "HOME"
  = environ (set_environ {[ "PATH" := "/usr/bin"; "HOME" := "/home/user" ]}
               (Demo.state 1)) !! "HOME".
Proof.
  apply (install_touches_only_PATH (Demo.world 200) false None false
           (set_environ {[ "PATH" := "/usr/bin"; "HOME" := "/home/user" ]}
              (Demo.state 1)) "HOME").
  discriminate.
Defined.

(** X12: when [install] returns a path, it is the non-empty path that
    [download_chromedriver] returned, [PATH] is set afterwards and has the
    directory of that path as a substring, and disk and trace are as the
    download left them. *)
Theorem install_success_puts_directory_on_PATH (w : World) (cwd : bool)
    (path : option string) (no_ssl : bool) (st st' : State) (fp : string) :
  install w cwd path no_ssl st = (Return (Some fp), st') ->
  fp <> EmptyString
  /\ (exists s1,
        download_chromedriver w (if cwd then Some (getcwd w) else path) no_ssl st
          = (Return (Some fp), s1)
        /\ files st' = files s1 /\ dirs st' = dirs s1 /\ trace st' = trace s1)
  /\ exists value,
       environ st' !! "PATH" = Some value
       /\ PyStr.contains (path_dirname w fp) value = true.
Proof.
  unfold install. intros H.
  apply bind_Return_inv in H as (r & s1 & Hdl & H).
  destruct r as [[|c f]|]; try discriminate.
  apply bind_Return_inv in H as ([] & s2 & Hup & [= <- <-]).
  split; [done|].
  unfold update_PATH in Hup.
  destruct (environ s1 !! "PATH") as [old|] eqn:Hold.
  - destruct (PyStr.contains (path_dirname w (String c f)) old) eqn:Hin;
      cbn in Hup; injection Hup as <-.
    + split; [by exists s1|]. by exists old.
    + split; [by exists s1|]. eexists. cbn. rewrite lookup_insert_eq.
      split; [done|]. apply contains_self_app.
  - injection Hup as <-. split; [by exists s1|].
    eexists. cbn. rewrite lookup_insert_eq. split; [done|]. apply contains_self.
Qed.

Lemma install_success_puts_directory_on_PATH_witness :
  "/opt/pkg/114/chromedriver" <> EmptyString
  /\ (exists s1,
        download_chromedriver (Demo.world 200) None false (Demo.state 1)
          = (Return (Some "/opt/pkg/114/chromedriver"), s1)
        /\ files (snd (install (Demo.world 200) false None false (Demo.state 1)))
           = files s1
        /\ dirs (snd (install (Demo.world 200) false None false (Demo.state 1)))
           = dirs s1
        /\ trace (snd (install (Demo.world 200) false None false (Demo.state 1)))
           = trace s1)
  /\ exists value,
       environ (snd (install (Demo.world 200) false None false (Demo.state 1)))
         !! "PATH" = Some value
       /\ PyStr.contains
            (path_dirname (Demo.world 200) "/opt/pkg/114/chromedriver") value
          = true.
Proof.
  apply (install_success_puts_directory_on_PATH (Demo.world 200) false None
           false (Demo.state 1)
           (snd (install (Demo.world 200) false None false (Demo.state 1)))
           "/opt/pkg/114/chromedriver").
  vm_compute. reflexivity.
Defined.

(** ** Runs that fetched the archive *)

Lemma list_cons_self {A : Type} (x : A) (l : list A) : l <> x :: l.
Proof. intros H. apply (f_equal List.length) in H. cbn in H. lia. Qed.

Lemma ensure_executable_elsewhere (fp : string) (st : State) :
  trace (snd (ensure_executable fp st)) = trace st
  /\ dirs (snd (ensure_executable fp st)) = dirs st
  /\ forall q, q <> fp ->
       files (snd (ensure_executable fp st)) !! q = files st !! q.
Proof.
  unfold ensure_executable, bind, access_X_OK, chmod.
  destruct (files st !! fp) as [f|] eqn:Hf; cbn.
  - destruct (executable f); cbn; [done|]. rewrite Hf. cbn.
    repeat split. intros q Hq. by rewrite lookup_insert_ne.
  - destruct (bool_decide (fp ∈ dirs st)) eqn:Hd; cbn; [done|].
    rewrite Hf, Hd. done.
Qed.

(** A run of the download branch that made the GET of [url] and got the
    answer 200 went on to unpack the body, with the files as before. *)
Lemma fetch_and_unpack_fetched (w : World) (version : string) (no_ssl : bool)
    (dir filename : string) (st st' : State) (r : result unit)
    (url : string) (body : payload) :
  fetch_and_unpack w version no_ssl dir filename st = (r, st') ->
  trace st' = EvUrlopen url :: trace st ->
  http_get w url = Answered 200 body ->
  exists s1,
    files s1 = files st
    /\ zip_extract w body filename dir s1 = (r, st').
Proof.
  unfold fetch_and_unpack. intros H Htrace Hget.
  apply bind_inv in H as [(e & [=] & _)|(d & st0 & [= <- <-] & H)].
  apply bind_inv in H as [(e & Hprep & ->)|([] & s1 & Hprep & H)];
    apply prepare_directory_only_adds_dirs in Hprep as (Hf & He & Ht & Hd).
  { rewrite Ht in Htrace. by destruct (list_cons_self _ _ Htrace). }
  apply bind_inv in H as [(e & [= Hurl <-] & ->)|(url0 & s1' & [= Hurl <-] & H)].
  { rewrite Ht in Htrace. by destruct (list_cons_self _ _ Htrace). }
  assert (url0 = url) as ->.
  { unfold try_except, bind, urlopen, read, lift in H.
    destruct (http_get w url0) as [| |status b0|status]; cbn in H;
      try (destruct ((200 <=? status)%Z && (status <? 300)%Z); cbn in H;
           try (destruct (negb (status =? 200)%Z); cbn in H));
      try (injection H as _ <-; cbn in Htrace; rewrite Ht in Htrace;
           by injection Htrace).
    apply zip_extract_run in H as (_ & Ht2 & _). cbn in Ht2.
    rewrite Ht2, Ht in Htrace. by injection Htrace. }
  unfold try_except, bind, urlopen, read, lift in H. rewrite Hget in H. cbn in H.
  eexists. split; [|exact H]. exact Hf.
Qed.

(** A run of [download_chromedriver] whose archive GETs are [[url]] took
    the download branch for some resolved version, from a state with the
    files of the start; if the branch raised, so did the run, and
    otherwise the run went on with the permission step. *)
Lemma download_chromedriver_fetched (w : World) (path : option string)
    (no_ssl : bool) (st st' : State) (r : result (option string))
    (url : string) :
  download_chromedriver w path no_ssl st = (r, st') ->
  run_gets no_ssl st st' [url] ->
  exists version dir s2 r3 s3,
    let filename := get_chromedriver_filename (sys_platform w) in
    let fp := path_join w dir filename in
    files s2 = files st
    /\ fetch_and_unpack w version no_ssl dir filename s2 = (r3, s3)
    /\ trace s3 = EvUrlopen url :: trace s2
    /\ match r3 with
       | Raise e => r = Raise e /\ st' = s3
       | Return _ =>
           ensure_executable fp s3 = (Return tt, st') /\ r = Return (Some fp)
           \/ exists e, fst (ensure_executable fp s3) = Raise e /\ r = Raise e
       end.
Proof.
  intros H Hgets. unfold run_gets in Hgets. cbn in Hgets.
  apply download_chromedriver_stages in H
    as [(Hobs & _)|(version & dir & s0 & s1 & s2 & need & Hobs & _ & Hp & Htail)];
    unfold obs, disk in Hobs; injection Hobs as Hf Hd He Hg.
  { rewrite Hg in Hgets. by destruct (list_cons_self _ _ Hgets). }
  rewrite <- Hg in Hgets. unfold download_tail in Htail.
  set (filename := get_chromedriver_filename (sys_platform w)) in *.
  set (fp := path_join w dir filename) in *.
  apply bind_inv in Htail as [(e & Hfetch & ->)|([] & s3 & Hfetch & Htail)].
  - destruct need; [|discriminate].
    exists version, dir, s2, (Raise e), st'. cbn zeta.
    split; [done|]. split; [done|]. split; [|done].
    pose proof Hfetch as Hrun.
    apply fetch_and_unpack_run in Hrun
      as (_ & [(Ht & _)|(url0 & Hurl & Ht & _)]).
    + rewrite Ht in Hgets. by destruct (list_cons_self _ _ Hgets).
    + rewrite Ht in Hgets. cbn in Hgets.
      rewrite (archive_url_not_index _ _ _ _ Hurl) in Hgets.
      injection Hgets as ->. done.
  - assert (Hts : trace st' = trace s3).
    { pose proof (ensure_executable_elsewhere fp s3) as (Ht & _).
      unfold bind in Htail.
      destruct (ensure_executable fp s3) as [[[]|e] s4]; cbn in Ht;
        injection Htail as _ <-; done. }
    rewrite Hts in Hgets.
    destruct need.
    + exists version, dir, s2, (Return tt), s3. cbn zeta.
      split; [done|]. split; [done|]. split.
      * pose proof Hfetch as Hrun.
        apply fetch_and_unpack_run in Hrun
          as (_ & [(Ht & _)|(url0 & Hurl & Ht & _)]).
        -- rewrite Ht in Hgets. by destruct (list_cons_self _ _ Hgets).
        -- rewrite Ht in Hgets. cbn in Hgets.
           rewrite (archive_url_not_index _ _ _ _ Hurl) in Hgets.
           injection Hgets as ->. done.
      * unfold bind, ret in Htail. fold fp.
        destruct (ensure_executable fp s3) as [[[]|e] s4]; cbn.
        -- left. by injection Htail as <- <-.
        -- right. exists e. by injection Htail as <- _.
    + injection Hfetch as <-.
      by destruct (list_cons_self _ _ Hgets).
Qed.

Lemma write_file_Return (w : World) (p : string) (blob : N) (st st' : State) :
  write_file w p blob st = (Return tt, st') ->
  exists m, st' = set_files (<[p := File blob m]> (files st)) st.
Proof.
  unfold write_file. destruct (bool_decide _); [discriminate|].
  intros [= <-]. by eexists.
Qed.

(** X13: when the run fetched the archive with answer 200 but the body is
    not a ZIP archive, or is one without a member named like the driver,
    [download_chromedriver] raises the error of [zipfile] ([BadZipFile],
    or [KeyError] for the missing member) and no file has been written or
    changed. *)
Theorem unusable_archive_writes_nothing (w : World) (path : option string)
    (no_ssl : bool) (st st' : State) (r : result (option string))
    (url : string) (body : payload) :
  download_chromedriver w path no_ssl st = (r, st') ->
  run_gets no_ssl st st' [url] ->
  http_get w url = Answered 200 body ->
  match zip_members body with
  | Raise _ => True
  | Return members =>
      zip_lookup (get_chromedriver_filename (sys_platform w)) members = None
  end ->
  r = Raise (match zip_members body with
             | Raise e => e
             | Return _ => KeyError
             end)
  /\ files st' = files st.
Proof.
  intros Hrun Hgets Hget Hbad.
  apply download_chromedriver_fetched with (url := url) in Hrun
    as (version & dir & s2 & r3 & s3 & Hf & Hfetch & Ht & Hr); [|done].
  apply fetch_and_unpack_fetched with (url := url) (body := body) in Hfetch
    as (s1 & Hf1 & Hzip); [|done..].
  unfold zip_extract, bind, lift, raise in Hzip.
  destruct (zip_members body) as [members|e].
  - rewrite Hbad in Hzip. injection Hzip as <- <-.
    destruct Hr as [-> ->]. split; [done|congruence].
  - injection Hzip as <- <-. destruct Hr as [-> ->]. split; [done|congruence].
Qed.

Lemma unusable_archive_writes_nothing_witness :
  fst (download_chromedriver Cases.broken_archive None false (Demo.state 1))
    = Raise BadZipFile
  /\ files (snd (download_chromedriver Cases.broken_archive None false
                   (Demo.state 1)))
     = files (Demo.state 1).
Proof.
  apply (unusable_archive_writes_nothing Cases.broken_archive None false
           (Demo.state 1)
           (snd (download_chromedriver Cases.broken_archive None false
                   (Demo.state 1)))
           (fst (download_chromedriver Cases.broken_archive None false
                   (Demo.state 1)))
           Demo.archive_url Demo.index_body).
  - apply surjective_pairing.
  - vm_compute. reflexivity.
  - reflexivity.
  - exact I.
Defined.

(** X14: when the run fetched the archive with answer 200 and returns the
    driver path, the file at that path holds the archive member named like
    the driver and is executable, and every other path holds the file it
    held before the run. *)
Theorem fetched_driver_is_archive_member (w : World) (path : option string)
    (no_ssl : bool) (st st' : State) (fp url : string) (body : payload)
    (members : list (string * N)) (blob : N) :
  download_chromedriver w path no_ssl st = (Return (Some fp), st') ->
  run_gets no_ssl st st' [url] ->
  http_get w url = Answered 200 body ->
  zip_members body = Return members ->
  zip_lookup (get_chromedriver_filename (sys_platform w)) members = Some blob ->
  (exists f,
     files st' !! fp = Some f /\ content f = blob /\ executable f = true)
  /\ forall q, q <> fp -> files st' !! q = files st !! q.
Proof.
  intros Hrun Hgets Hget Hmembers Hblob.
  apply download_chromedriver_fetched with (url := url) in Hrun
    as (version & dir & s2 & r3 & s3 & Hf & Hfetch & Ht & Hr); [|done].
  apply fetch_and_unpack_fetched with (url := url) (body := body) in Hfetch
    as (s1 & Hf1 & Hzip); [|done..].
  destruct r3 as [[]|e]; [|by destruct Hr].
  destruct Hr as [[Hens [= ->]]|(e & _ & [=])].
  unfold zip_extract, bind, lift in Hzip. rewrite Hmembers, Hblob in Hzip.
  apply write_file_Return in Hzip as [m ->].
  set (fp := path_join w dir (get_chromedriver_filename (sys_platform w))) in *.
  assert (Hf0 : files (set_files (<[fp := File blob m]> (files s1)) s1) !! fp
                = Some (File blob m)) by apply lookup_insert_eq.
  destruct (ensure_executable_run fp _ _ Hf0)
    as (s4 & Hens' & _ & _ & _ & Hfile & _).
  assert (s4 = st') as -> by (pose proof (eq_trans (eq_sym Hens) Hens'); congruence).
  split.
  - eexists. split; [exact Hfile|]. split; [done|].
    cbn. destruct (executable (File blob m)) eqn:Hx; [exact Hx|reflexivity].
  - intros q Hq.
    destruct (ensure_executable_elsewhere fp
                (set_files (<[fp := File blob m]> (files s1)) s1))
      as (_ & _ & Hother).
    specialize (Hother q Hq).
    assert (Hsnd : snd (ensure_executable fp
                     (set_files (<[fp := File blob m]> (files s1)) s1)) = st')
      by exact (f_equal snd Hens).
    rewrite Hsnd in Hother. rewrite Hother. cbn.
    rewrite lookup_insert_ne by done. congruence.
Qed.

Lemma fetched_driver_is_archive_member_witness :
  (exists f,
     files (snd (Demo.download_run 200)) !! "/opt/pkg/114/chromedriver" = Some f
     /\ content f = 7%N /\ executable f = true)
  /\ forall q, q <> "/opt/pkg/114/chromedriver" ->
       files (snd (Demo.download_run 200)) !! q = files (Demo.state 1) !! q.
Proof.
  apply (fetched_driver_is_archive_member (Demo.world 200) None false
           (Demo.state 1) (snd (Demo.download_run 200))
           "/opt/pkg/114/chromedriver" Demo.archive_url Demo.archive_body
           [("chromedriver", 7%N)] 7%N).
  - vm_compute. reflexivity.
  - vm_compute. reflexivity.
  - reflexivity.
  - reflexivity.
  - reflexivity.
Defined.

(** ** Scenario B: the driver is already there *)

(** X15: when the driver file exists under the directory of the resolved
    version and [check_version] confirms that version, the run makes no
    archive GET and creates no directory; it returns the driver path, and
    the only change on disk is the mode of the driver file, set to octal
    744 if the file was not executable. *)
Theorem already_installed_skips_fetch (w : World) (path : option string)
    (no_ssl : bool) (st s1 s2 s3 s5 : State) (v cv dir : string) (f : file) :
  let fp := path_join w dir (get_chromedriver_filename (sys_platform w)) in
  get_chrome_version w st = (Return (Some v), s1) ->
  v <> EmptyString ->
  get_matched_chromedriver_version w v no_ssl s1 = (Return (Some cv), s2) ->
  cv <> EmptyString ->
  driver_directory w path (get_major_version cv) s2 = (Return dir, s3) ->
  files st !! fp = Some f ->
  check_version w fp cv s3 = (Return true, s5) ->
  exists st',
    download_chromedriver w path no_ssl st = (Return (Some fp), st')
    /\ run_gets no_ssl st st' []
    /\ dirs st' = dirs st
    /\ (forall q, q <> fp -> files st' !! q = files st !! q)
    /\ files st' !! fp
       = Some (File (content f) (if executable f then mode f else 484)).
Proof.
  intros fp Hreader Hv Hmatch Hcv Hdir Hfile Hcheck.
  pose proof (preserves_eq _ _ _ _ _
    (preserves_get_chrome_version (obs no_ssl) (obs_spawn no_ssl) w) Hreader) as O1.
  pose proof (preserves_eq _ _ _ _ _
    (preserves_get_matched_chromedriver_version (obs no_ssl) w v no_ssl
       (obs_index no_ssl)) Hmatch) as O2.
  pose proof (preserves_eq _ _ _ _ _
    (preserves_driver_directory (obs no_ssl) w path _) Hdir) as O3.
  pose proof (preserves_eq _ _ _ _ _
    (preserves_check_version (obs no_ssl) (obs_spawn no_ssl) w _ _) Hcheck) as O5.
  assert (Hobs3 : obs no_ssl s3 = obs no_ssl st) by congruence.
  assert (Hobs5 : obs no_ssl s5 = obs no_ssl st) by congruence.
  unfold obs, disk in Hobs3, Hobs5.
  injection Hobs3 as Hf3 _ _ _. injection Hobs5 as Hf5 Hd5 _ Hg5.
  assert (Hfile5 : files s5 !! fp = Some f) by (by rewrite Hf5).
  destruct (ensure_executable_run fp s5 f Hfile5)
    as (st' & Hens & Hd' & Ht' & _ & Hfp & _).
  exists st'. split; [|split; [|split; [|split]]].
  - unfold download_chromedriver. unfold bind at 1. rewrite Hreader.
    destruct v as [|c0 v0]; [done|]. unfold bind at 1. rewrite Hmatch.
    destruct cv as [|c1 v1]; [done|]. unfold bind at 1. rewrite Hdir.
    fold fp. unfold bind at 1, isfile.
    rewrite bool_decide_eq_true_2 by (rewrite Hf3, Hfile; by eexists).
    unfold bind at 1. rewrite Hcheck. cbn [negb orb].
    unfold bind at 1, ret. unfold bind at 1. by rewrite Hens.
  - unfold run_gets. by rewrite Ht', Hg5.
  - by rewrite Hd', Hd5.
  - intros q Hq.
    destruct (ensure_executable_elsewhere fp s5) as (_ & _ & Hother).
    specialize (Hother q Hq).
    assert (Hsnd : snd (ensure_executable fp s5) = st') by exact (f_equal snd Hens).
    rewrite Hsnd in Hother. by rewrite Hother, Hf5.
  - exact Hfp.
Qed.

Lemma already_installed_skips_fetch_witness :
  exists st',
    download_chromedriver (Demo.world 200) None false Cases.installed
      = (Return (Some "/opt/pkg/114/chromedriver"), st')
    /\ run_gets false Cases.installed st' []
    /\ dirs st' = dirs Cases.installed
    /\ (forall q, q <> "/opt/pkg/114/chromedriver" ->
          files st' !! q = files Cases.installed !! q)
    /\ files st' !! "/opt/pkg/114/chromedriver"
       = Some (File (content (File 7 484))
                 (if executable (File 7 484) then mode (File 7 484) else 484)).
Proof.
  apply (already_installed_skips_fetch (Demo.world 200) None false
           Cases.installed
           (log (EvSpawn ["/usr/bin/google-chrome"; "--version"]) Cases.installed)
           (log (EvUrlopen (index_url false))
              (log (EvSpawn ["/usr/bin/google-chrome"; "--version"])
                 Cases.installed))
           (log (EvUrlopen (index_url false))
              (log (EvSpawn ["/usr/bin/google-chrome"; "--version"])
                 Cases.installed))
           (log (EvSpawn ["/opt/pkg/114/chromedriver"; "-v"])
              (log (EvUrlopen (index_url false))
                 (log (EvSpawn ["/usr/bin/google-chrome"; "--version"])
                    Cases.installed)))
           "114.0.5735.90" "114.0.5735.16" "/opt/pkg/114" (File 7 484)).
  - vm_compute. reflexivity.
  - discriminate.
  - vm_compute. reflexivity.
  - discriminate.
  - vm_compute. reflexivity.
  - vm_compute. reflexivity.
  - vm_compute. reflexivity.
Defined.

(** ** The download URL *)

Lemma string_length_app (a b : string) :
  String.length (a +:+ b) = String.length a + String.length b.
Proof.
  induction a as [|c a IH]; [done|].
  change (String c a +:+ b) with (String c (a +:+ b)). cbn. by rewrite IH.
Qed.

Lemma string_app_inv_head (a x y : string) : a +:+ x = a +:+ y -> x = y.
Proof.
  induction a as [|c a IH]; [done|].
  change (String c a +:+ x) with (String c (a +:+ x)).
  change (String c a +:+ y) with (String c (a +:+ y)).
  intros [= H]. by apply IH.
Qed.

Lemma string_app_inv_tail (a b c : string) : a +:+ c = b +:+ c -> a = b.
Proof.
  revert b. induction a as [|x a IH]; intros [|y b] H.
  - done.
  - apply (f_equal String.length) in H. rewrite !string_length_app in H.
    cbn in H. lia.
  - apply (f_equal String.length) in H. rewrite !string_length_app in H.
    cbn in H. lia.
  - change (String x a +:+ c) with (String x (a +:+ c)) in H.
    change (String y b +:+ c) with (String y (b +:+ c)) in H.
    injection H as -> H. f_equal. by apply IH.
Qed.

(** X16: [get_chromedriver_url] maps different versions, and the two
    transport schemes, to different URLs: a URL it returns determines the
    version and the [no_ssl] flag it was built from. *)
Theorem get_chromedriver_url_injective (w : World) (v1 v2 : string)
    (ssl1 ssl2 : bool) (url : string) :
  get_chromedriver_url w v1 ssl1 = Return url ->
  get_chromedriver_url w v2 ssl2 = Return url ->
  v1 = v2 /\ ssl1 = ssl2.
Proof.
  unfold get_chromedriver_url.
  destruct (get_platform_architecture _ _) as [[platform architecture]|e];
    [|discriminate].
  intros [= <-] [= H].
  destruct ssl1, ssl2.
  - apply string_app_inv_head, string_app_inv_tail in H. by split.
  - exfalso. unfold String.append in H. discriminate.
  - exfalso. unfold String.append in H. discriminate.
  - apply string_app_inv_head, string_app_inv_tail in H. by split.
Qed.

Lemma get_chromedriver_url_injective_witness :
  "114.0.5735.16" = "114.0.5735.16" /\ false = false.
Proof.
  apply (get_chromedriver_url_injective (Demo.world 200)
           "114.0.5735.16" "114.0.5735.16" false false Demo.archive_url);
    reflexivity.
Defined.

(** ** Where the driver is put *)

(** X17: a path that [download_chromedriver] returns is the driver's file
    name under the directory named after the major version of the version
    that the resolver returned in that run for the version the browser
    reported, under the absolute form of the supplied directory, which
    then is an existing directory, or, when no (or an empty) path was
    supplied, under [get_chromedriver_path()]. *)
Theorem returned_path_layout (w : World) (path : option string)
    (no_ssl : bool) (st st' : State) (fp : string) :
  download_chromedriver w path no_ssl st = (Return (Some fp), st') ->
  exists v cv s1 s2,
    get_chrome_version w st = (Return (Some v), s1)
    /\ get_matched_chromedriver_version w v no_ssl s1 = (Return (Some cv), s2)
    /\ match path with
       | Some (String c p) =>
           String c p ∈ dirs st /\ fp = driver_path w (String c p) cv
       | _ =>
           fp = path_join w
                  (path_join w (get_chromedriver_path w) (get_major_version cv))
                  (get_chromedriver_filename (sys_platform w))
       end.
Proof.
  unfold download_chromedriver. intros H.
  apply bind_Return_inv in H as (v & s1 & Hreader & H).
  destruct v as [[|c0 v0]|]; try discriminate.
  apply bind_Return_inv in H as (cv & s2 & Hmatch & H).
  destruct cv as [[|c1 v1]|]; try discriminate.
  apply bind_Return_inv in H as (dir & s3 & Hdir & H).
  apply bind_Return_inv in H as (present & s4 & _ & H).
  apply bind_Return_inv in H as (current & s5 & _ & H).
  apply bind_Return_inv in H as ([] & s6 & _ & H).
  apply bind_Return_inv in H as ([] & s7 & _ & [= <- _]).
  pose proof (preserves_eq _ _ _ _ _
    (preserves_get_chrome_version (obs no_ssl) (obs_spawn no_ssl) w) Hreader) as O1.
  pose proof (preserves_eq _ _ _ _ _
    (preserves_get_matched_chromedriver_version (obs no_ssl) w _ no_ssl
       (obs_index no_ssl)) Hmatch) as O2.
  assert (Hobs : obs no_ssl s2 = obs no_ssl st) by congruence.
  unfold obs, disk in Hobs. injection Hobs as _ Hd _ _.
  exists (String c0 v0), (String c1 v1), s1, s2.
  split; [exact Hreader|]. split; [exact Hmatch|].
  unfold driver_directory in Hdir.
  destruct path as [[|c p]|].
  - by injection Hdir as <- _.
  - apply bind_Return_inv in Hdir as (d & s8 & Hisdir & Hdir).
    unfold isdir in Hisdir. injection Hisdir as <- <-.
    destruct (bool_decide (String c p ∈ dirs s2)) eqn:Hin; [|discriminate].
    injection Hdir as <- _. apply bool_decide_eq_true in Hin.
    split; [by rewrite <- Hd|done].
  - by injection Hdir as <- _.
Qed.

Lemma returned_path_layout_witness :
  exists v cv s1 s2,
    get_chrome_version (Demo.world 200) (Demo.state 1) = (Return (Some v), s1)
    /\ get_matched_chromedriver_version (Demo.world 200) v false s1
       = (Return (Some cv), s2)
    /\ "/opt/pkg/114/chromedriver"
       = path_join (Demo.world 200)
           (path_join (Demo.world 200) (get_chromedriver_path (Demo.world 200))
              (get_major_version cv))
           (get_chromedriver_filename (sys_platform (Demo.world 200))).
Proof.
  apply (returned_path_layout (Demo.world 200) None false (Demo.state 1)
           (snd (Demo.download_run 200)) "/opt/pkg/114/chromedriver").
  vm_compute. reflexivity.
Defined.

(** The same run with a supplied directory: the driver lands under it, in
    the directory of the resolved major version. *)
Example returned_path_under_supplied_directory :
  fst (download_chromedriver (Demo.world 200) (Some "/home/user") false
         (Demo.state 1))
  = Return (Some (driver_path (Demo.world 200) "/home/user" "114.0.5735.16")).
Proof. vm_compute. reflexivity. Qed.

(** ** Remote Version Resolver: a Key element without text *)

Lemma match_keys_textless (version : string) (pre : list string)
    (rest : list (option string)) :
  Forall (fun k => ~ key_matches version k) pre ->
  match_keys version (List.map Some pre ++ None :: rest) = Raise AttributeError.
Proof.
  induction pre as [|k pre IH]; intros Hpre; [done|].
  inversion Hpre as [|? ? Hk Hpre']; subst. cbn.
  rewrite find_zero_iff.
  destruct (String.prefix _ k) eqn:Hp.
  - by apply key_matches_prefix in Hp.
  - by apply IH.
Qed.

(** X18: when the index has a Key element without text and no key before
    it matches, the resolver raises AttributeError after the one GET of
    the index, whatever keys follow: later matching keys are not
    reached. *)
Theorem textless_key_raises (w : World) (st : State) (version : string)
    (no_ssl : bool) (status : Z) (body : payload) (pre : list string)
    (rest : list (option string)) :
  http_get w (index_url no_ssl) = Answered status body ->
  (200 <= status < 300)%Z ->
  xml_keys body = Return (List.map Some pre ++ None :: rest) ->
  Forall (fun k => ~ key_matches version k) pre ->
  get_matched_chromedriver_version w version no_ssl st
    = (Raise AttributeError, log (EvUrlopen (index_url no_ssl)) st).
Proof.
  intros Hget Hstatus Hkeys Hpre.
  unfold get_matched_chromedriver_version, bind, urlopen, lift.
  rewrite Hget.
  replace ((200 <=? status)%Z && (status <? 300)%Z) with true
    by (symmetry; apply andb_true_iff; split; [apply Z.leb_le | apply Z.ltb_lt]; lia).
  cbn. by rewrite Hkeys, match_keys_textless.
Qed.

Lemma textless_key_raises_witness :
  get_matched_chromedriver_version Cases.textless_index "114.0.5735.90" false
    (Demo.state 1)
  = (Raise AttributeError, log (EvUrlopen (index_url false)) (Demo.state 1)).
Proof.
  apply (textless_key_raises Cases.textless_index (Demo.state 1)
           "114.0.5735.90" false 200
           (Payload
              (Return (List.map Some ["113.0.5672.63/chromedriver_linux64.zip"]
                       ++ None :: List.map Some Demo.index_keys))
              (Raise BadZipFile))
           ["113.0.5672.63/chromedriver_linux64.zip"]
           (List.map Some Demo.index_keys)).
  - reflexivity.
  - lia.
  - reflexivity.
  - constructor; [|constructor].
    intros Hm. by apply key_matches_prefix in Hm.
Defined.

(** ** Fetch & Unpack: a connection lost after the request was sent *)

(** A run of the download branch that made the GET of [url] raises the
    connection's error when the connection is lost before the answer, or
    after the answer 200 while the body is read. *)
Lemma fetch_and_unpack_lost (w : World) (version : string) (no_ssl : bool)
    (dir filename : string) (st st' : State) (r : result unit)
    (url : string) :
  fetch_and_unpack w version no_ssl dir filename st = (r, st') ->
  trace st' = EvUrlopen url :: trace st ->
  http_get w url = NoAnswer \/ http_get w url = BodyLost 200 ->
  r = Raise ConnectionLost /\ files st' = files st.
Proof.
  unfold fetch_and_unpack. intros H Htrace Hget.
  apply bind_inv in H as [(e & [=] & _)|(d & st0 & [= <- <-] & H)].
  apply bind_inv in H as [(e & Hprep & ->)|([] & s1 & Hprep & H)];
    apply prepare_directory_only_adds_dirs in Hprep as (Hf & He & Ht & Hd).
  { rewrite Ht in Htrace. by destruct (list_cons_self _ _ Htrace). }
  apply bind_inv in H as [(e & [= Hurl <-] & ->)|(url0 & s1' & [= Hurl <-] & H)].
  { rewrite Ht in Htrace. by destruct (list_cons_self _ _ Htrace). }
  assert (url0 = url) as ->.
  { unfold try_except, bind, urlopen, read, lift in H.
    destruct (http_get w url0) as [| |status b0|status]; cbn in H;
      try (destruct ((200 <=? status)%Z && (status <? 300)%Z); cbn in H;
           try (destruct (negb (status =? 200)%Z); cbn in H));
      try (injection H as _ <-; cbn in Htrace; rewrite Ht in Htrace;
           by injection Htrace).
    apply zip_extract_run in H as (_ & Ht2 & _). cbn in Ht2.
    rewrite Ht2, Ht in Htrace. by injection Htrace. }
  unfold try_except, bind, urlopen, read, lift in H.
  destruct Hget as [Hget|Hget]; rewrite Hget in H; cbn in H;
    injection H as <- <-; by split.
Qed.

(** X19: the [except] clause of line 187 catches URLError only, and the
    body is read outside the [try]: in a run of [download_chromedriver]
    whose archive GET loses the connection after the request was sent,
    before the answer or while the body of a 200 answer is read, the
    connection's error escapes instead of the RuntimeError that names the
    URL, and no file is written. *)
Theorem archive_connection_lost_escapes (w : World) (path : option string)
    (no_ssl : bool) (st st' : State) (r : result (option string))
    (url : string) :
  download_chromedriver w path no_ssl st = (r, st') ->
  run_gets no_ssl st st' [url] ->
  http_get w url = NoAnswer \/ http_get w url = BodyLost 200 ->
  r = Raise ConnectionLost /\ files st' = files st.
Proof.
  intros Hrun Hgets Hget.
  apply download_chromedriver_fetched with (url := url) in Hrun
    as (version & dir & s2 & r3 & s3 & Hf & Hfetch & Ht & Hr); [|done].
  apply fetch_and_unpack_lost with (url := url) in Hfetch as [-> Hf3]; [|done..].
  destruct Hr as [-> ->]. split; [done|congruence].
Qed.

Lemma archive_connection_lost_escapes_witness :
  fst (download_chromedriver Demo.lost_world None false (Demo.state 1))
    = Raise ConnectionLost
  /\ files (snd (download_chromedriver Demo.lost_world None false (Demo.state 1)))
     = files (Demo.state 1).
Proof.
  apply (archive_connection_lost_escapes Demo.lost_world None false
           (Demo.state 1)
           (snd (download_chromedriver Demo.lost_world None false (Demo.state 1)))
           (fst (download_chromedriver Demo.lost_world None false (Demo.state 1)))
           Demo.archive_url).
  - apply surjective_pairing.
  - vm_compute. reflexivity.
  - left. reflexivity.
Defined.
